(** * Financial calculators of [manimarks.py]

    A shallow embedding of the calculators of the console finance chatbot
    ([savings_projection], [lump_sum_growth], [sip_needed], [estimate_tax])
    and the properties stated for them.

    Numbers.  The Python code computes on [float]s that come from
    [get_float] and on [int]s that come from [get_int].  Amounts and rates
    are modelled as exact rationals [Q] (the data model calls them real
    numbers), period counts as [Z].  Rounding, infinities and NaN are outside
    this model.  The module [Binary64] holds the same code on IEEE binary64
    numbers: there every comparison and every exception is the one Python
    takes, and what depends on them is proved there.

    Errors.  Python's [/] raises [ZeroDivisionError] on a zero divisor;
    [**] raises it on a zero base with a negative exponent and raises
    [OverflowError] when the power leaves the range of the floats; the
    conversion of an [int] operand to [float] raises [OverflowError] when the
    [int] is too large.  All are modelled as fallible operations in a small
    error monad, also where the divisor is the literal [100.0], so that
    "does not raise" is a theorem and not a modelling decision. *)

From Stdlib Require Import ZArith QArith Qpower Qminmax Qabs Lqa Lia List Bool Floats.
Import ListNotations.

Local Open Scope Q_scope.

(** ** Results of a Python computation *)

Inductive exn : Set :=
| ZeroDivisionError
| OverflowError.

Inductive result (A : Type) : Type :=
| Ok (a : A)
| Raise (e : exn).

Arguments Ok {A} a.
Arguments Raise {A} e.

Definition bind {A B : Type} (m : result A) (k : A -> result B) : result B :=
  match m with
  | Ok a => k a
  | Raise e => Raise e
  end.

Notation "x <- m ;; k" := (bind m (fun x => k))
  (at level 61, m at next level, right associativity).

(** [returns m v]: the computation [m] ends normally with a number equal
    (as a rational) to [v]. *)
Definition returns (m : result Q) (v : Q) : Prop :=
  match m with
  | Ok a => a == v
  | Raise _ => False
  end.

(** ** Python's arithmetic on numbers *)

(** [x / y] *)
Definition py_div (x y : Q) : result Q :=
  if Qeq_bool y 0 then Raise ZeroDivisionError else Ok (x / y).

(** A number of this magnitude or more rounds to an infinity: the midpoint
    between the largest float, 2^1024 - 2^971, and 2^1024. *)
Definition int_overflow : Z := (2 ^ 1024 - 2 ^ 970)%Z.
Definition float_overflow : Q := inject_Z int_overflow.

Definition overflows (v : Q) : bool := Qle_bool float_overflow (Qabs v).

(** The conversion of an [int] operand to [float]:
    "OverflowError: int too large to convert to float". *)
Definition py_float (n : Z) : result Q :=
  if overflows (inject_Z n) then Raise OverflowError else Ok (inject_Z n).

(** [x ** n] for a [float] x and an [int] exponent (CPython's [float_pow]):
    the exponent is converted first; a zero exponent gives 1.0; a zero base
    gives 0.0, or [ZeroDivisionError] for a negative exponent; a power that
    overflows gives [OverflowError], one that underflows gives (a number
    near) 0.0. *)
Definition py_pow (x : Q) (n : Z) : result Q :=
  iw <- py_float n ;;
  if (n =? 0)%Z then Ok 1
  else if Qeq_bool x 0 then
    if (n <? 0)%Z then Raise ZeroDivisionError else Ok 0
  else if overflows (x ^ n) then Raise OverflowError
  else Ok (x ^ n).

(** [x < y] and [x <= y] *)
Definition py_lt (x y : Q) : bool := negb (Qle_bool y x).
Definition py_le (x y : Q) : bool := Qle_bool x y.

(** The builtins [min(a, b)] and [max(a, b)]: the first argument is kept
    unless the second is strictly smaller (resp. larger). *)
Definition py_min (a b : Q) : Q := if py_lt b a then b else a.
Definition py_max (a b : Q) : Q := if py_lt a b then b else a.

(** [for _ in range(n): fv = body(fv)]; [range n] is empty for [n <= 0]. *)
Fixpoint for_range (n : nat) (body : Q -> Q) (fv : Q) : Q :=
  match n with
  | O => fv
  | S k => for_range k body (body fv)
  end.

(** ** The calculators *)

Definition savings_projection (monthly_saving annual_rate_pct : Q) (years : Z)
  : result Q :=
  r100 <- py_div annual_rate_pct 100 ;;
  r <- py_div r100 12 ;;
  let n := (years * 12)%Z in
  let fv := 0 in
  Ok (for_range (Z.to_nat n) (fun fv => (fv + monthly_saving) * (1 + r)) fv).

Definition lump_sum_growth (principal annual_rate_pct : Q) (years : Z)
  : result Q :=
  r <- py_div annual_rate_pct 100 ;;
  p <- py_pow (1 + r) years ;;
  Ok (principal * p).

(** The test [r == 0] and the divisor [(1 + r) ** n - 1] are taken here on
    exact numbers; on floats 1 + r can round to 1.0 for a rate that is not
    0.  What is claimed of the values and of the errors of [sip_needed] for
    years > 0 is therefore stated on [Binary64.sip_needed] below. *)
Definition sip_needed (goal_amount annual_rate_pct : Q) (years : Z)
  : result Q :=
  r100 <- py_div annual_rate_pct 100 ;;
  r <- py_div r100 12 ;;
  let n := (years * 12)%Z in
  if Qeq_bool r 0 then
    fn <- py_float n ;;
    py_div goal_amount fn
  else
    p <- py_pow (1 + r) n ;;
    payment <- py_div (goal_amount * r) (p - 1) ;;
    Ok payment.

Definition emergency_fund_recommendation (monthly_expenses : Q) (months : Z)
  : result Q :=
  fm <- py_float months ;;
  Ok (monthly_expenses * fm).

Definition retirement_projection
  (current_savings monthly_contrib : Q) (years_to_retire : Z) (annual_return_pct : Q)
  : result Q :=
  lump <- lump_sum_growth current_savings annual_return_pct years_to_retire ;;
  sip_future <- savings_projection monthly_contrib annual_return_pct years_to_retire ;;
  Ok (lump + sip_future).

(** ** The profile and the advice computed from it *)

(** [x > y] *)
Definition py_gt (x y : Q) : bool := py_lt y x.

(** The numeric keys of the profile dictionary that the advice reads; a
    missing key is [None]. *)
Record profile : Type := mk_profile {
  monthly_income : option Q;
  monthly_expenses : option Q
}.

(** [user.get(key, default)] *)
Definition get (field : option Q) (default : Q) : Q :=
  match field with
  | Some v => v
  | None => default
  end.

(** The savings rate that [setup_profile] prints: 0.0 unless the income is
    positive. *)
Definition savings_rate_guess (income expenses : Q) : result Q :=
  let savings_rate_guess := 0 in
  if py_gt income 0 then
    q <- py_div (income - expenses) income ;;
    Ok (py_max 0 (q * 100))
  else Ok savings_rate_guess.

(** The three tips of [quick_advice], by the line they print. *)
Inductive tip : Set :=
| TipIncreaseSavings   (* "Try to increase savings rate gradually ..." *)
| TipAutomate          (* "Good. Aim to automate some investments ..." *)
| TipEquity.           (* "Great savings rate ..." *)

(** What [quick_advice] prints before the general tips: the request to set
    up the income, or the savings, their share of the income and a tip. *)
Inductive advice : Type :=
| SetUpIncome
| SavingsAdvice (save save_pct : Q) (t : tip).

Definition quick_advice (user : profile) : result advice :=
  let mi := get (monthly_income user) 0 in
  let me := get (monthly_expenses user) 0 in
  if py_le mi 0 then Ok SetUpIncome
  else
    let save := py_max 0 (mi - me) in
    save_pct <- (if py_gt mi 0 then q <- py_div save mi ;; Ok (q * 100) else Ok 0) ;;
    Ok (SavingsAdvice save save_pct
          (if py_lt save_pct 10 then TipIncreaseSavings
           else if py_lt save_pct 30 then TipAutomate
           else TipEquity)).

(** ** The tax estimator *)

(** A slab is [(upper_limit, rate_pct)]; [None] is Python's [None]. *)
Definition slab : Type := option Q * Q.

(** The local variables of [estimate_tax]. *)
Record tax_state : Type := mk_state {
  tax : Q;
  prev_limit : Q;
  remaining : Q
}.

(** How an iteration of the loop ends: [continue] and falling off the end of
    the body both go to the next slab, [break] leaves the loop. *)
Inductive flow : Set :=
| Next
| Break.

(** [limit if limit is not None else prev_limit] *)
Definition next_prev_limit (limit : option Q) (prev : Q) : Q :=
  match limit with
  | Some l => l
  | None => prev
  end.

(** One run of the loop body. *)
Definition slab_step (st : tax_state) (s : slab) : result (tax_state * flow) :=
  let '(limit, rate) := s in
  let taxable_here :=
    match limit with
    | None => remaining st
    | Some l => py_max 0 (py_min (remaining st) (l - prev_limit st))
    end in
  if py_le taxable_here 0 then
    Ok (mk_state (tax st) (next_prev_limit limit (prev_limit st)) (remaining st),
        Next)
  else
    pct <- py_div rate 100 ;;
    let tax' := tax st + taxable_here * pct in
    let remaining' := remaining st - taxable_here in
    let st' := mk_state tax' (next_prev_limit limit (prev_limit st)) remaining' in
    Ok (st', if py_le remaining' 0 then Break else Next).

(** [for limit, rate in slabs: ...] *)
Fixpoint for_slabs (st : tax_state) (slabs : list slab) : result tax_state :=
  match slabs with
  | [] => Ok st
  | s :: rest =>
      r <- slab_step st s ;;
      match snd r with
      | Break => Ok (fst r)
      | Next => for_slabs (fst r) rest
      end
  end.

Definition estimate_tax (taxable_income : Q) (slabs : list slab) : result Q :=
  st <- for_slabs (mk_state 0 0 taxable_income) slabs ;;
  Ok (tax st).

(** The example table of the docstring. *)
Definition example_slabs : list slab :=
  [(Some 250000, 0); (Some 500000, 5); (Some 1000000, 20); (None, 30)].

(** A malformed table: bounds not ascending, and slabs after the unbounded
    one. *)
Definition malformed_slabs : list slab :=
  [(Some 500000, 5); (Some 250000, 10); (None, 30); (Some 100, 20)].

(** ** The walk of the specification

    The specification's description of the tax walk, in its own words, on
    real (here rational) numbers with the mathematical [max] and [min].  The
    text "advance previousUpperBound to this bracket's upperBound" does not
    say what happens at an unbounded bracket, so the walk takes the value
    after an unbounded bracket from a parameter [adv]. *)
Module Spec.

Fixpoint walk (adv : Q -> Q) (total previousUpperBound remaining : Q)
  (table : list slab) : Q :=
  match table with
  | [] => total
  | (upperBound, rate) :: rest =>
      let amount :=
        match upperBound with
        | None => remaining
        | Some b => Qmax 0 (Qmin remaining (b - previousUpperBound))
        end in
      let advanced :=
        match upperBound with
        | None => adv previousUpperBound
        | Some b => b
        end in
      if Qle_bool amount 0 then walk adv total advanced remaining rest
      else
        let total' := total + amount * (rate / 100) in
        let remaining' := remaining - amount in
        if Qle_bool remaining' 0 then total'
        else walk adv total' advanced remaining' rest
  end.

Definition computeTax (adv : Q -> Q) (taxableIncome : Q) (slabTable : list slab) : Q :=
  walk adv 0 0 taxableIncome slabTable.

(** monthly rate r = annualRatePercent/100/12 *)
Definition monthlyRate (annualRatePercent : Q) : Q := annualRatePercent / 100 / 12.

(** balance starts at 0; each period,
    balance = (balance + monthlyAmount) * (1 + monthlyRate) *)
Fixpoint balance (monthlyAmount monthlyRate : Q) (periods : nat) : Q :=
  match periods with
  | O => 0
  | S k => (balance monthlyAmount monthlyRate k + monthlyAmount) * (1 + monthlyRate)
  end.

(** The ordinary-annuity closed-form future value:
    payment * ((1+r)^n - 1) / r *)
Definition annuityFutureValue (payment r : Q) (n : Z) : Q :=
  payment * ((1 + r) ^ n - 1) / r.

End Spec.

(** ** The same code on IEEE binary64 numbers

    [estimate_tax] and [savings_projection] use only [+ - * /], comparisons
    and [min]/[max], which Python computes as the IEEE operations of the
    primitive floats (round to nearest even, NaN compares false).  Python's
    float [/] raises when the divisor compares equal to zero.  [**] is the
    C library's [pow] and has no counterpart here. *)
Module Binary64.

Local Open Scope float_scope.

Definition py_div (x y : float) : result float :=
  if PrimFloat.eqb y 0 then Raise ZeroDivisionError else Ok (x / y).

Definition py_lt (x y : float) : bool := PrimFloat.ltb x y.
Definition py_le (x y : float) : bool := PrimFloat.leb x y.

Definition py_min (a b : float) : float := if py_lt b a then b else a.
Definition py_max (a b : float) : float := if py_lt a b then b else a.

Fixpoint for_range (n : nat) (body : float -> float) (fv : float) : float :=
  match n with
  | O => fv
  | S k => for_range k body (body fv)
  end.

Definition savings_projection (monthly_saving annual_rate_pct : float) (years : Z)
  : result float :=
  r100 <- py_div annual_rate_pct 100 ;;
  r <- py_div r100 12 ;;
  let n := (years * 12)%Z in
  let fv := 0 in
  Ok (for_range (Z.to_nat n) (fun fv => (fv + monthly_saving) * (1 + r)) fv).

Definition slab : Type := option float * float.

Record tax_state : Type := mk_state {
  tax : float;
  prev_limit : float;
  remaining : float
}.

Definition next_prev_limit (limit : option float) (prev : float) : float :=
  match limit with
  | Some l => l
  | None => prev
  end.

Definition slab_step (st : tax_state) (s : slab) : result (tax_state * flow) :=
  let '(limit, rate) := s in
  let taxable_here :=
    match limit with
    | None => remaining st
    | Some l => py_max 0 (py_min (remaining st) (l - prev_limit st))
    end in
  if py_le taxable_here 0 then
    Ok (mk_state (tax st) (next_prev_limit limit (prev_limit st)) (remaining st),
        Next)
  else
    pct <- py_div rate 100 ;;
    let tax' := tax st + taxable_here * pct in
    let remaining' := remaining st - taxable_here in
    let st' := mk_state tax' (next_prev_limit limit (prev_limit st)) remaining' in
    Ok (st', if py_le remaining' 0 then Break else Next).

Fixpoint for_slabs (st : tax_state) (slabs : list slab) : result tax_state :=
  match slabs with
  | [] => Ok st
  | s :: rest =>
      r <- slab_step st s ;;
      match snd r with
      | Break => Ok (fst r)
      | Next => for_slabs (fst r) rest
      end
  end.

Definition estimate_tax (taxable_income : float) (slabs : list slab) : result float :=
  st <- for_slabs (mk_state 0 0 taxable_income) slabs ;;
  Ok (tax st).

Definition example_slabs : list slab :=
  [(Some 250000, 0); (Some 500000, 5); (Some 1000000, 20); (None, 30)].

(** A number above zero: a positive finite number or plus infinity. *)
Definition SFpositive (f : spec_float) : bool :=
  match f with
  | S754_infinity false | S754_finite false _ _ => true
  | _ => false
  end.

(** The conversion of an [int] operand to [float], rounded to nearest even;
    an [int] that would round to an infinity raises [OverflowError]. *)
Definition of_int (n : Z) : result float :=
  if (int_overflow <=? Z.abs n)%Z then Raise OverflowError
  else Ok (SF2Prim (binary_normalize prec emax n 0 false)).

(** [x / n] for an [int] n: n is converted, and the converted divisor is 0.0
    exactly when n is 0. *)
Definition py_div_int (x : float) (n : Z) : result float :=
  fn <- of_int n ;;
  if (n =? 0)%Z then Raise ZeroDivisionError else Ok (x / fn).

(** CPython's [DOUBLE_IS_ODD_INTEGER] on a converted [int]: above 2^53 every
    float is even. *)
Definition odd_int (n : Z) : bool := Z.odd n && (Z.abs n <? 2 ^ 53)%Z.

Section Libm.

(** The C library's [pow]: its result and whether it set [errno] to
    [ERANGE].  Nothing is assumed of it. *)
Variable c_pow : float -> float -> float * bool.

(** [v ** n] for a [float] v and an [int] n: CPython's [float_pow].  The
    exponent is converted first.  The special cases are decided before the
    C library is called: a zero exponent, a NaN or infinite or zero base, a
    negative base (its sign is put back on the result) and a base of 1.0.
    After the call, [_Py_ADJUST_ERANGE1] turns an infinite result into
    [ERANGE] and forgives [ERANGE] on a zero result; [ERANGE] becomes
    [OverflowError]. *)
Definition py_pow (v : float) (n : Z) : result float :=
  iw <- of_int n ;;
  if (n =? 0)%Z then Ok 1
  else if PrimFloat.is_nan v then Ok v
  else if PrimFloat.is_infinity v then
    if (0 <? n)%Z then Ok (if odd_int n then v else abs v)
    else Ok (if odd_int n then (if v <? 0 then neg_zero else 0) else 0)
  else if v =? 0 then
    if (n <? 0)%Z then Raise ZeroDivisionError
    else Ok (if odd_int n then v else 0)
  else
    let negate_result := (v <? 0) && odd_int n in
    let iv := if v <? 0 then - v else v in
    if iv =? 1 then Ok (if negate_result then -1 else 1)
    else
      let (ix, erange) := c_pow iv iw in
      let erange := if erange then negb (ix =? 0) else PrimFloat.is_infinity ix in
      let ix := if negate_result then - ix else ix in
      if erange then Raise OverflowError else Ok ix.

Definition lump_sum_growth (principal annual_rate_pct : float) (years : Z)
  : result float :=
  r <- py_div annual_rate_pct 100 ;;
  p <- py_pow (1 + r) years ;;
  Ok (principal * p).

Definition sip_needed (goal_amount annual_rate_pct : float) (years : Z)
  : result float :=
  r100 <- py_div annual_rate_pct 100 ;;
  r <- py_div r100 12 ;;
  let n := (years * 12)%Z in
  if r =? 0 then py_div_int goal_amount n
  else
    p <- py_pow (1 + r) n ;;
    payment <- py_div (goal_amount * r) (p - 1) ;;
    Ok payment.

End Libm.

(** The integer that a finite float holds. *)
Definition SF2Z (f : spec_float) : Z :=
  match f with
  | S754_finite s m e =>
      let v := if (0 <=? e)%Z then (Zpos m * 2 ^ e)%Z else (Zpos m / 2 ^ (- e))%Z in
      if s then (- v)%Z else v
  | _ => 0%Z
  end.

(** A C library whose [pow] is correctly rounded and leaves [errno] alone,
    for positive finite bases and integer exponents (all that [py_pow] asks
    of it); it runs the model on concrete inputs. *)
Definition crpow (x y : float) : float * bool :=
  match Prim2SF x with
  | S754_finite false m e =>
      let n := SF2Z (Prim2SF y) in
      let r :=
        if (0 <=? n)%Z then binary_normalize prec emax (Zpos m ^ n) (e * n) false
        else SFdiv prec emax (S754_finite false 1 0)
                   (S754_finite false (Z.to_pos (Zpos m ^ (- n))) (e * (- n))) in
      (SF2Prim r, false)
  | _ => (nan, false)
  end.

End Binary64.

(** A slab table in ascending order: every bound above the one before it
    (the first above 0), an unbounded slab only in last place. *)
Fixpoint ascending_from (prev : Q) (slabs : list slab) : bool :=
  match slabs with
  | [] => true
  | (Some l, _) :: rest => py_lt prev l && ascending_from l rest
  | (None, _) :: rest => match rest with [] => true | _ => false end
  end.

Definition ascending (slabs : list slab) : Prop := ascending_from 0 slabs = true.

(** All rates of the table are non-negative. *)
Definition rates_nonneg (slabs : list slab) : Prop :=
  Forall (fun s : slab => 0 <= snd s) slabs.

(** All rates of the table lie between 0 and [top]. *)
Definition rates_within (top : Q) (slabs : list slab) : Prop :=
  Forall (fun s : slab => 0 <= snd s /\ snd s <= top) slabs.

(** The textbook progressive tax of a table read as bands: the part of the
    income inside each band (from the previous bound to the slab's bound, or
    from the previous bound upwards for an unbounded slab) times the rate of
    the band. *)
Fixpoint band_tax (income prev : Q) (slabs : list slab) : Q :=
  match slabs with
  | [] => 0
  | (Some l, rate) :: rest =>
      Qmax 0 (Qmin income l - prev) * (rate / 100) + band_tax income l rest
  | (None, rate) :: rest =>
      Qmax 0 (income - prev) * (rate / 100) + band_tax income prev rest
  end.

(** Every slab of the table is bounded, by at most [top]. *)
Definition bounded_by (top : Q) (slabs : list slab) : Prop :=
  Forall (fun s : slab => match fst s with
                          | Some l => l <= top
                          | None => False
                          end) slabs.

(** * Properties *)

(** ** Comparisons and the error monad *)

Lemma Qle_bool_false (x y : Q) : Qle_bool x y = false <-> y < x.
Proof.
  split; intro H.
  - apply Qnot_le_lt. intro Hle. apply Qle_bool_iff in Hle. congruence.
  - destruct (Qle_bool x y) eqn:E; [|reflexivity].
    apply Qle_bool_iff in E. lra.
Qed.

Ltac qbool :=
  repeat match goal with
  | H : Qle_bool _ _ = true |- _ => rewrite Qle_bool_iff in H
  | H : Qle_bool _ _ = false |- _ => rewrite Qle_bool_false in H
  | H : Qeq_bool _ _ = true |- _ => apply Qeq_bool_iff in H
  | H : Qeq_bool _ _ = false |- _ => apply Qeq_bool_neq in H
  end.

Ltac py_cases :=
  unfold py_max, py_min, py_le, py_lt in *; cbn [negb] in *;
  repeat (qbool;
          match goal with
          | |- context [Qle_bool ?a ?b] =>
              destruct (Qle_bool a b) eqn:?; cbn [negb] in *
          | H : context [Qle_bool ?a ?b] |- _ =>
              destruct (Qle_bool a b) eqn:?; cbn [negb] in *
          end);
  qbool.

Lemma py_div_nonzero (x y : Q) : ~ y == 0 -> py_div x y = Ok (x / y).
Proof.
  intro H. unfold py_div. destruct (Qeq_bool y 0) eqn:E; [|reflexivity].
  apply Qeq_bool_iff in E. contradiction.
Qed.

Lemma py_div_zero (x y : Q) : y == 0 -> py_div x y = Raise ZeroDivisionError.
Proof.
  intro H. unfold py_div. apply Qeq_bool_iff in H. now rewrite H.
Qed.

Lemma py_div_100 (x : Q) : py_div x 100 = Ok (x / 100).
Proof. reflexivity. Qed.

Lemma py_div_12 (x : Q) : py_div x 12 = Ok (x / 12).
Proof. reflexivity. Qed.

(** ** The tax walk, step by step *)

(** The amount taxed in a bounded slab is the mathematical
    [max 0 (min remaining width)]. *)
Lemma taxable_here_bounded (rem w : Q) :
  py_max 0 (py_min rem w) == Qmax 0 (Qmin rem w).
Proof.
  destruct (Q.max_spec 0 (Qmin rem w)) as [[? ->]|[? ->]];
    destruct (Q.min_spec rem w) as [[? E]|[? E]]; rewrite E in *;
    py_cases; lra.
Qed.

(** With nothing left to tax, the body takes the [continue] branch. *)
Lemma slab_step_skip (st : tax_state) (limit : option Q) (rate : Q) :
  remaining st <= 0 ->
  slab_step st (limit, rate) =
  Ok (mk_state (tax st) (next_prev_limit limit (prev_limit st)) (remaining st), Next).
Proof.
  intro H. unfold slab_step.
  destruct limit as [l|].
  - destruct (py_le (py_max 0 (py_min (remaining st) (l - prev_limit st))) 0) eqn:E;
      [reflexivity|].
    exfalso. py_cases; lra.
  - destruct (py_le (remaining st) 0) eqn:E; [reflexivity|].
    exfalso. py_cases; lra.
Qed.

Lemma for_slabs_nothing_left (slabs : list slab) (st : tax_state) :
  remaining st <= 0 ->
  exists p, for_slabs st slabs = Ok (mk_state (tax st) p (remaining st)).
Proof.
  revert st. induction slabs as [|[limit rate] rest IH]; intros st H.
  - exists (prev_limit st). destruct st; reflexivity.
  - cbn [for_slabs]. rewrite slab_step_skip by exact H. cbn.
    apply (IH (mk_state _ _ _)). exact H.
Qed.

(** The body never raises. *)
Lemma slab_step_ok (st : tax_state) (s : slab) :
  exists st' fl, slab_step st s = Ok (st', fl).
Proof.
  destruct s as [limit rate]. unfold slab_step.
  match goal with |- context [if ?b then _ else _] => destruct b end.
  - eauto.
  - rewrite py_div_100. cbn [bind]. eauto.
Qed.

Lemma for_slabs_ok (slabs : list slab) (st : tax_state) :
  exists st', for_slabs st slabs = Ok st'.
Proof.
  revert st. induction slabs as [|s rest IH]; intro st.
  - now exists st.
  - cbn [for_slabs]. destruct (slab_step_ok st s) as (st' & fl & ->).
    cbn. destruct fl; [apply IH | eauto].
Qed.

(** ** [estimate_tax] against the walk of the specification *)

Lemma walk_nothing_left (adv : Q -> Q) (table : list slab) (total prev rem : Q) :
  rem <= 0 -> Spec.walk adv total prev rem table = total.
Proof.
  revert prev. induction table as [|[ub rate] rest IH]; intros prev H.
  - reflexivity.
  - cbn [Spec.walk]. destruct ub as [b|].
    + destruct (Qle_bool (Qmax 0 (Qmin rem (b - prev))) 0) eqn:E.
      * now apply IH.
      * exfalso. qbool.
        destruct (Q.max_spec 0 (Qmin rem (b - prev))) as [[? E1]|[? E1]];
          destruct (Q.min_spec rem (b - prev)) as [[? E2]|[? E2]];
          rewrite E2 in *; lra.
    + destruct (Qle_bool rem 0) eqn:E.
      * now apply IH.
      * exfalso. qbool. lra.
Qed.

(** The loop of the code and the walk of the specification agree from any
    pair of matching states.  The previous bounds have to match only while
    there is something left to tax. *)
Lemma for_slabs_walk (adv : Q -> Q) (slabs : list slab) :
  forall (st : tax_state) (total prev rem : Q),
    tax st == total ->
    remaining st == rem ->
    (rem <= 0 \/ prev_limit st == prev) ->
    exists st', for_slabs st slabs = Ok st' /\
                tax st' == Spec.walk adv total prev rem slabs.
Proof.
  induction slabs as [|s rest IH]; intros st total prev rem Ht Hr Hp.
  - exists st. split; [reflexivity | exact Ht].
  - destruct (Qlt_le_dec 0 rem) as [Hpos|Hneg].
    2:{ destruct (for_slabs_nothing_left (s :: rest) st) as [p Hskip]; [lra|].
        rewrite Hskip. eexists. split; [reflexivity|].
        rewrite walk_nothing_left by exact Hneg. exact Ht. }
    destruct s as [limit rate].
    destruct Hp as [Hp|Hp]; [lra|].
    cbn [for_slabs Spec.walk]. unfold slab_step.
    destruct limit as [l|].
    + pose proof (taxable_here_bounded (remaining st) (l - prev_limit st)) as Ha.
      set (a := py_max 0 (py_min (remaining st) (l - prev_limit st))) in *.
      assert (Hb : a == Qmax 0 (Qmin rem (l - prev))).
      { rewrite Ha, Hr, Hp. reflexivity. }
      clear Ha. set (b := Qmax 0 (Qmin rem (l - prev))) in *.
      assert (Hbr : b <= rem).
      { subst b.
        destruct (Q.max_spec 0 (Qmin rem (l - prev))) as [[? E1]|[? E1]];
          destruct (Q.min_spec rem (l - prev)) as [[? E2]|[? E2]];
          rewrite E1; rewrite E2 in *; lra. }
      unfold py_le.
      destruct (Qle_bool a 0) eqn:Ea; destruct (Qle_bool b 0) eqn:Eb; qbool;
        try lra.
      * cbn. apply (IH (mk_state _ _ _)); cbn; [exact Ht | exact Hr | right; reflexivity].
      * rewrite py_div_100. cbn.
        destruct (Qle_bool (remaining st - a) 0) eqn:Ec;
          destruct (Qle_bool (rem - b) 0) eqn:Ed; qbool; try lra.
        -- cbn. eexists. split; [reflexivity|]. cbn. rewrite Ht, Hb. reflexivity.
        -- cbn. apply (IH (mk_state _ _ _)); cbn.
           ++ rewrite Ht, Hb. reflexivity.
           ++ rewrite Hr, Hb. reflexivity.
           ++ right. reflexivity.
    + unfold py_le.
      destruct (Qle_bool (remaining st) 0) eqn:Ea; destruct (Qle_bool rem 0) eqn:Eb;
        qbool; try lra.
      rewrite py_div_100. cbn.
      destruct (Qle_bool (remaining st - remaining st) 0) eqn:Ec;
        destruct (Qle_bool (rem - rem) 0) eqn:Ed; qbool; try lra.
      cbn. eexists. split; [reflexivity|]. cbn. rewrite Ht, Hr. reflexivity.
Qed.

(** C1: for every taxable income and every slab table, [estimate_tax]
    returns the result of the walk of the specification (remaining starts at
    the income and the previous upper bound at 0; the amount taxed in a
    bracket is all of remaining if it is unbounded, else
    max(0, min(remaining, upperBound - previousUpperBound)); a bracket with
    amount <= 0 is skipped but the previous bound advances; otherwise
    amount * rate/100 is added, amount is subtracted from remaining, and the
    walk stops once remaining <= 0), whatever "advancing" means at an
    unbounded bracket.  In particular
    estimate_tax(800000, [(250000,0),(500000,5),(1000000,20),(None,30)])
    is 72500. *)
Theorem estimate_tax_is_spec_walk :
  (forall (adv : Q -> Q) (taxable_income : Q) (slabs : list slab),
      returns (estimate_tax taxable_income slabs)
              (Spec.computeTax adv taxable_income slabs))
  /\ returns (estimate_tax 800000 example_slabs) 72500.
Proof.
  split.
  - intros adv income slabs. unfold estimate_tax, Spec.computeTax.
    destruct (for_slabs_walk adv slabs (mk_state 0 0 income) 0 0 income)
      as (st' & -> & H); cbn; try reflexivity.
    + right. reflexivity.
    + exact H.
  - vm_compute. reflexivity.
Qed.

Lemma estimate_tax_never_raises_any (taxable_income : Q) (slabs : list slab) :
  exists t, estimate_tax taxable_income slabs = Ok t.
Proof.
  unfold estimate_tax.
  destruct (for_slabs_ok slabs (mk_state 0 0 taxable_income)) as [st' ->].
  cbn. eauto.
Qed.

(** C8: for every taxable income and every slab table, also a malformed one
    (bounds not ascending, slabs after an unbounded one), [estimate_tax]
    ends without raising, with a value that its arguments determine. *)
Theorem estimate_tax_never_raises (taxable_income : Q) (slabs : list slab) :
  exists t, estimate_tax taxable_income slabs = Ok t
            /\ forall t', estimate_tax taxable_income slabs = Ok t' -> t' = t.
Proof.
  destruct (estimate_tax_never_raises_any taxable_income slabs) as [t Ht].
  exists t. split; [exact Ht|].
  intros t' H. rewrite Ht in H. now inversion H.
Qed.

Lemma estimate_tax_never_raises_witness :
  ~ ascending malformed_slabs
  /\ exists t, estimate_tax 800000 malformed_slabs = Ok t
               /\ forall t', estimate_tax 800000 malformed_slabs = Ok t' -> t' = t.
Proof.
  split; [vm_compute; discriminate|].
  apply (estimate_tax_never_raises 800000 malformed_slabs).
Defined.

(** C9: for every taxable income <= 0 and every slab table,
    [estimate_tax] returns 0: no slab adds to the tax. *)
Theorem estimate_tax_nonpositive_income (taxable_income : Q) (slabs : list slab) :
  taxable_income <= 0 ->
  estimate_tax taxable_income slabs = Ok 0.
Proof.
  intro H. unfold estimate_tax.
  destruct (for_slabs_nothing_left slabs (mk_state 0 0 taxable_income) H) as [p ->].
  reflexivity.
Qed.

Lemma estimate_tax_nonpositive_income_witness :
  -5 <= 0 /\ estimate_tax (-5) example_slabs = Ok 0.
Proof.
  split; [lra|]. apply (estimate_tax_nonpositive_income (-5) example_slabs). lra.
Defined.

(** ** Sign and monotonicity of the tax *)

Section Taxable.

Variable w : Q.

(** The amount taxed in a bounded slab of width [w]. *)
Let amount (rem : Q) : Q := py_max 0 (py_min rem w).

Lemma taxable_nonneg (rem : Q) : 0 <= amount rem.
Proof. unfold amount. py_cases; lra. Qed.

Lemma taxable_le_remaining (rem : Q) : 0 < amount rem -> amount rem <= rem.
Proof. unfold amount. py_cases; lra. Qed.

Lemma taxable_monotone (rem1 rem2 : Q) :
  rem1 <= rem2 -> amount rem1 <= amount rem2.
Proof. unfold amount. py_cases; lra. Qed.

Lemma remainder_monotone (rem1 rem2 : Q) :
  rem1 <= rem2 -> rem1 - amount rem1 <= rem2 - amount rem2.
Proof. unfold amount. py_cases; lra. Qed.

End Taxable.

Lemma pct_nonneg (rate : Q) : 0 <= rate -> 0 <= rate / 100.
Proof.
  intro H. setoid_replace (rate / 100) with (rate * (1 # 100)) by field. lra.
Qed.

(** With non-negative rates the tax total never goes down along the loop. *)
Lemma for_slabs_tax_grows (slabs : list slab) :
  rates_nonneg slabs ->
  forall st st', for_slabs st slabs = Ok st' -> tax st <= tax st'.
Proof.
  induction 1 as [|[limit rate] rest Hrate _ IH]; intros st st' H.
  - inversion H. lra.
  - cbn [for_slabs] in H. unfold slab_step in H. cbn [snd] in Hrate.
    apply pct_nonneg in Hrate. rewrite py_div_100 in H.
    set (a := match limit with
              | Some l => py_max 0 (py_min (remaining st) (l - prev_limit st))
              | None => remaining st
              end) in *.
    destruct (py_le a 0) eqn:Ea; cbn in H.
    + apply IH in H. exact H.
    + unfold py_le in Ea. qbool.
      assert (0 <= a * (rate / 100)) by (apply Qmult_le_0_compat; lra).
      destruct (py_le (remaining st - a) 0); cbn in H.
      * inversion H. cbn. lra.
      * apply IH in H. cbn in H. lra.
Qed.

(** Two runs over the same table from the same previous bound: the run with
    less tax so far and less left to tax ends with less tax. *)
Lemma for_slabs_monotone (slabs : list slab) :
  rates_nonneg slabs ->
  forall (prev t1 r1 t2 r2 : Q) (s1 s2 : tax_state),
    t1 <= t2 -> r1 <= r2 ->
    for_slabs (mk_state t1 prev r1) slabs = Ok s1 ->
    for_slabs (mk_state t2 prev r2) slabs = Ok s2 ->
    tax s1 <= tax s2.
Proof.
  induction 1 as [|[limit rate] rest Hrate Hrest IH];
    intros prev t1 r1 t2 r2 s1 s2 Ht Hr H1 H2.
  - inversion H1; inversion H2. exact Ht.
  - cbn [for_slabs] in H1, H2. unfold slab_step in H1, H2.
    cbn [tax prev_limit remaining snd] in *.
    apply pct_nonneg in Hrate. rewrite py_div_100 in H1, H2.
    destruct limit as [l|].
    + pose proof (taxable_nonneg (l - prev) r1) as N1.
      pose proof (taxable_nonneg (l - prev) r2) as N2.
      pose proof (taxable_le_remaining (l - prev) r2) as L2.
      pose proof (taxable_monotone (l - prev) r1 r2 Hr) as M.
      pose proof (remainder_monotone (l - prev) r1 r2 Hr) as R.
      cbv zeta in N1, N2, L2, M, R.
      set (a1 := py_max 0 (py_min r1 (l - prev))) in *.
      set (a2 := py_max 0 (py_min r2 (l - prev))) in *.
      assert (a1 * (rate / 100) <= a2 * (rate / 100))
        by (apply Qmult_le_compat_r; lra).
      assert (0 <= a2 * (rate / 100)) by (apply Qmult_le_0_compat; lra).
      unfold py_le in H1, H2.
      destruct (Qle_bool a1 0) eqn:E1; destruct (Qle_bool a2 0) eqn:E2;
        cbn in H1, H2; qbool; try lra.
      * eapply IH; [| | exact H1 | exact H2]; lra.
      * destruct (Qle_bool (r2 - a2) 0) eqn:B2; cbn in H2; qbool.
        -- inversion H2. cbn.
           destruct (for_slabs_nothing_left rest (mk_state t1 l r1)) as [p Hp];
             [cbn; lra|].
           rewrite Hp in H1. inversion H1. cbn. lra.
        -- eapply IH; [| | exact H1 | exact H2]; lra.
      * destruct (Qle_bool (r1 - a1) 0) eqn:B1;
          destruct (Qle_bool (r2 - a2) 0) eqn:B2; cbn in H1, H2; qbool; try lra.
        -- inversion H1; inversion H2. cbn. lra.
        -- inversion H1. cbn.
           apply (for_slabs_tax_grows rest Hrest) in H2. cbn in H2. lra.
        -- eapply IH; [| | exact H1 | exact H2]; lra.
    + unfold py_le in H1, H2.
      destruct (Qle_bool r1 0) eqn:E1; destruct (Qle_bool r2 0) eqn:E2;
        cbn in H1, H2; qbool; try lra.
      * eapply IH; [| | exact H1 | exact H2]; lra.
      * assert (0 <= r2 * (rate / 100)) by (apply Qmult_le_0_compat; lra).
        destruct (Qle_bool (r2 - r2) 0) eqn:B2; cbn in H2; qbool; try lra.
        inversion H2. cbn.
        destruct (for_slabs_nothing_left rest (mk_state t1 prev r1)) as [p Hp];
          [cbn; lra|].
        rewrite Hp in H1. inversion H1. cbn. lra.
      * assert (r1 * (rate / 100) <= r2 * (rate / 100))
          by (apply Qmult_le_compat_r; lra).
        destruct (Qle_bool (r1 - r1) 0) eqn:B1;
          destruct (Qle_bool (r2 - r2) 0) eqn:B2; cbn in H1, H2; qbool; try lra.
        inversion H1; inversion H2. cbn. lra.
Qed.

(** The tax is non-negative and monotone on every table with non-negative
    rates, ascending or not. *)
Lemma estimate_tax_nonneg_any_table (slabs : list slab) (income t : Q) :
  rates_nonneg slabs -> estimate_tax income slabs = Ok t -> 0 <= t.
Proof.
  intros Hrates H. unfold estimate_tax in H.
  destruct (for_slabs (mk_state 0 0 income) slabs) as [st|] eqn:E; [|discriminate].
  cbn in H. inversion H. subst t.
  apply (for_slabs_tax_grows slabs Hrates) in E. exact E.
Qed.

Lemma estimate_tax_monotone_any_table (slabs : list slab) (income1 income2 t1 t2 : Q) :
  rates_nonneg slabs -> income1 <= income2 ->
  estimate_tax income1 slabs = Ok t1 -> estimate_tax income2 slabs = Ok t2 ->
  t1 <= t2.
Proof.
  intros Hrates Hle H1 H2. unfold estimate_tax in H1, H2.
  destruct (for_slabs (mk_state 0 0 income1) slabs) as [s1|] eqn:E1; [|discriminate].
  destruct (for_slabs (mk_state 0 0 income2) slabs) as [s2|] eqn:E2; [|discriminate].
  cbn in H1, H2. inversion H1; inversion H2. subst t1 t2.
  eapply (for_slabs_monotone slabs Hrates); [| | exact E1 | exact E2]; lra.
Qed.

(** C6 (as amended): for every ascending slab table whose rates are all
    non-negative, [estimate_tax] is non-negative for every income >= 0 and
    monotonically non-decreasing in the income. *)
Theorem estimate_tax_nonneg_monotone (slabs : list slab) :
  ascending slabs -> rates_nonneg slabs ->
  (forall income, 0 <= income ->
     exists t, estimate_tax income slabs = Ok t /\ 0 <= t)
  /\ (forall income1 income2, income1 <= income2 ->
        exists t1 t2, estimate_tax income1 slabs = Ok t1
                      /\ estimate_tax income2 slabs = Ok t2 /\ t1 <= t2).
Proof.
  intros _ Hrates. split.
  - intros income _.
    destruct (estimate_tax_never_raises_any income slabs) as [t Ht].
    exists t. split; [exact Ht|].
    now apply (estimate_tax_nonneg_any_table slabs income).
  - intros income1 income2 Hle.
    destruct (estimate_tax_never_raises_any income1 slabs) as [t1 H1].
    destruct (estimate_tax_never_raises_any income2 slabs) as [t2 H2].
    exists t1, t2. repeat split; try assumption.
    now apply (estimate_tax_monotone_any_table slabs income1 income2).
Qed.

Lemma example_slabs_rates_nonneg : rates_nonneg example_slabs.
Proof. repeat constructor; cbn; lra. Qed.

Lemma estimate_tax_nonneg_monotone_witness :
  ascending example_slabs /\ rates_nonneg example_slabs
  /\ 0 <= 800000 /\ 300000 <= 800000
  /\ (exists t, estimate_tax 800000 example_slabs = Ok t /\ 0 <= t)
  /\ (exists t1 t2, estimate_tax 300000 example_slabs = Ok t1
                    /\ estimate_tax 800000 example_slabs = Ok t2 /\ t1 <= t2).
Proof.
  split; [reflexivity|]. split; [exact example_slabs_rates_nonneg|].
  split; [lra|]. split; [lra|].
  destruct (estimate_tax_nonneg_monotone example_slabs) as [H1 H2];
    [reflexivity | exact example_slabs_rates_nonneg |].
  split; [apply H1 | apply H2]; lra.
Defined.

(** C6 fails as stated: the one-slab table [(None, -10)] is ascending, yet
    the tax on an income of 100 is -10, below 0 and below the tax on an
    income of 0. *)
Lemma estimate_tax_negative_rate_counterexample :
  ascending [(None, -10)]
  /\ 0 <= 100
  /\ estimate_tax 0 [(None, -10)] = Ok 0
  /\ returns (estimate_tax 100 [(None, -10)]) (-10)
  /\ ~ (forall income, 0 <= income ->
          exists t, estimate_tax income [(None, -10)] = Ok t /\ 0 <= t)
  /\ ~ (forall income1 income2, income1 <= income2 ->
          exists t1 t2, estimate_tax income1 [(None, -10)] = Ok t1
                        /\ estimate_tax income2 [(None, -10)] = Ok t2 /\ t1 <= t2).
Proof.
  split; [reflexivity|]. split; [lra|]. split; [reflexivity|].
  split; [vm_compute; reflexivity|]. split.
  - intro H. destruct (H 100) as (t & Ht & Hpos); [lra|].
    vm_compute in Ht. inversion Ht. subst t. revert Hpos. vm_compute. tauto.
  - intro H. destruct (H 0 100) as (t1 & t2 & H1 & H2 & Hle); [lra|].
    vm_compute in H1, H2. inversion H1; inversion H2; subst.
    revert Hle. vm_compute. tauto.
Qed.

(** ** Powers *)

Lemma Qpower_succ (x : Q) (k : nat) : x ^ Z.of_nat (S k) == x * x ^ Z.of_nat k.
Proof.
  rewrite Nat2Z.inj_succ. unfold Z.succ.
  rewrite Qpower_plus' by lia. rewrite Qpower_1_r. ring.
Qed.

Lemma Qpower_base_monotone (x y : Q) (n : Z) :
  0 <= x -> x <= y -> (0 <= n)%Z -> x ^ n <= y ^ n.
Proof.
  intros Hx Hxy Hn. rewrite <- (Z2Nat.id n Hn).
  induction (Z.to_nat n) as [|k IH].
  - cbn. lra.
  - rewrite !Qpower_succ.
    assert (0 <= x ^ Z.of_nat k) by (apply Qpower_0_le; exact Hx).
    apply Qmult_le_compat_nonneg; split; assumption.
Qed.

(** *** The fallible operations *)

Lemma float_overflow_positive : 0 < float_overflow.
Proof. reflexivity. Qed.



Lemma overflows_false (v : Q) : overflows v = false <-> Qabs v < float_overflow.
Proof. unfold overflows. apply Qle_bool_false. Qed.

Lemma py_float_small (n : Z) :
  (Z.abs n < int_overflow)%Z -> py_float n = Ok (inject_Z n).
Proof.
  intro H. unfold py_float.
  replace (overflows (inject_Z n)) with false; [reflexivity|].
  symmetry. apply overflows_false.
  change (Qabs (inject_Z n)) with (inject_Z (Z.abs n)).
  unfold float_overflow. rewrite <- Zlt_Qlt. exact H.
Qed.

Lemma py_float_inv (n : Z) (v : Q) :
  py_float n = Ok v -> v = inject_Z n /\ (Z.abs n < int_overflow)%Z.
Proof.
  unfold py_float. destruct (overflows (inject_Z n)) eqn:E; [discriminate|].
  intro H. inversion H. split; [reflexivity|].
  apply overflows_false in E.
  change (Qabs (inject_Z n)) with (inject_Z (Z.abs n)) in E.
  unfold float_overflow in E. rewrite <- Zlt_Qlt in E. exact E.
Qed.

Lemma py_float_error (n : Z) (e : exn) : py_float n = Raise e -> e = OverflowError.
Proof.
  unfold py_float. destruct (overflows (inject_Z n)); [|discriminate].
  intro H. now inversion H.
Qed.

Lemma py_div_inv (x y v : Q) : py_div x y = Ok v -> ~ y == 0 /\ v = x / y.
Proof.
  unfold py_div. destruct (Qeq_bool y 0) eqn:E; [discriminate|].
  intro H. inversion H. split; [|reflexivity]. now apply Qeq_bool_neq.
Qed.

Lemma py_div_error (x y : Q) (e : exn) : py_div x y = Raise e -> e = ZeroDivisionError.
Proof.
  unfold py_div. destruct (Qeq_bool y 0); [|discriminate].
  intro H. now inversion H.
Qed.

Lemma py_pow_exponent_0 (x : Q) : py_pow x 0 = Ok 1.
Proof. reflexivity. Qed.

(** What a returned power is, and when it is returned. *)
Lemma py_pow_inv (x : Q) (n : Z) (v : Q) :
  py_pow x n = Ok v ->
  (Z.abs n < int_overflow)%Z /\ v == x ^ n
  /\ (n = 0%Z \/ Qabs (x ^ n) < float_overflow).
Proof.
  unfold py_pow.
  destruct (py_float n) as [iw|e] eqn:Ef; cbn [bind]; [|discriminate].
  apply py_float_inv in Ef. destruct Ef as [_ Hn].
  destruct (n =? 0)%Z eqn:E0.
  - apply Z.eqb_eq in E0. subst n. intro H. inversion H.
    split; [exact Hn|]. split; [reflexivity | now left].
  - apply Z.eqb_neq in E0.
    destruct (Qeq_bool x 0) eqn:Ex; qbool.
    + destruct (n <? 0)%Z; [discriminate|]. intro H. inversion H.
      assert (Hp : x ^ n == 0) by (rewrite Ex; apply Qpower_0; exact E0).
      split; [exact Hn|]. split; [symmetry; exact Hp|]. right.
      rewrite Hp. exact float_overflow_positive.
    + destruct (overflows (x ^ n)) eqn:Eo; [discriminate|].
      intro H. inversion H. apply overflows_false in Eo.
      split; [exact Hn|]. split; [reflexivity | now right].
Qed.

Lemma py_pow_safe (x : Q) (n : Z) :
  (Z.abs n < int_overflow)%Z -> ~ (x == 0 /\ (n < 0)%Z) ->
  Qabs (x ^ n) < float_overflow ->
  exists v, py_pow x n = Ok v /\ v == x ^ n.
Proof.
  intros Hn Hz Ho. unfold py_pow. rewrite py_float_small by exact Hn. cbn [bind].
  destruct (n =? 0)%Z eqn:E0.
  - apply Z.eqb_eq in E0. subst n. exists 1. split; reflexivity.
  - apply Z.eqb_neq in E0. destruct (Qeq_bool x 0) eqn:Ex; qbool.
    + destruct (n <? 0)%Z eqn:En.
      * exfalso. apply Hz. split; [exact Ex | now apply Z.ltb_lt].
      * exists 0. split; [reflexivity|]. rewrite Ex. symmetry.
        apply Qpower_0. exact E0.
    + apply overflows_false in Ho. rewrite Ho. exists (x ^ n).
      split; reflexivity.
Qed.

(** [x ** n] raises [ZeroDivisionError] exactly for a zero base with a
    negative exponent that converts to a float. *)
Lemma py_pow_zero_division (x : Q) (n : Z) :
  py_pow x n = Raise ZeroDivisionError
  <-> (x == 0 /\ (n < 0)%Z /\ (Z.abs n < int_overflow)%Z).
Proof.
  unfold py_pow. split.
  - destruct (py_float n) as [iw|e] eqn:Ef; cbn [bind].
    + apply py_float_inv in Ef. destruct Ef as [_ Hn].
      destruct (n =? 0)%Z; [discriminate|].
      destruct (Qeq_bool x 0) eqn:Ex; qbool.
      * destruct (n <? 0)%Z eqn:En; [|discriminate].
        intros _. apply Z.ltb_lt in En. auto.
      * destruct (overflows (x ^ n)); discriminate.
    + intro H. inversion H. subst e. apply py_float_error in Ef. discriminate.
  - intros (Hx & Hn & Hc). rewrite py_float_small by exact Hc. cbn [bind].
    replace (n =? 0)%Z with false by (symmetry; apply Z.eqb_neq; lia).
    apply Qeq_bool_iff in Hx. rewrite Hx.
    replace (n <? 0)%Z with true by (symmetry; apply Z.ltb_lt; exact Hn).
    reflexivity.
Qed.


(** ** The compounding loop *)

Lemma for_range_succ (n : nat) (body : Q -> Q) (fv : Q) :
  for_range (S n) body fv = body (for_range n body fv).
Proof.
  revert fv. induction n as [|k IH]; intro fv.
  - reflexivity.
  - change (for_range (S (S k)) body fv) with (for_range (S k) body (body fv)).
    rewrite IH. reflexivity.
Qed.

(** The loop of [savings_projection] computes the balance of the
    recurrence. *)
Lemma for_range_balance (m r : Q) (n : nat) :
  for_range n (fun fv => (fv + m) * (1 + r)) 0 = Spec.balance m r n.
Proof.
  induction n as [|k IH].
  - reflexivity.
  - rewrite for_range_succ, IH. reflexivity.
Qed.

Lemma savings_projection_unfold (m a : Q) (years : Z) :
  savings_projection m a years =
  Ok (Spec.balance m (Spec.monthlyRate a) (Z.to_nat (years * 12))).
Proof.
  unfold savings_projection. rewrite py_div_100. cbn [bind].
  rewrite py_div_12. cbn [bind]. cbv zeta.
  rewrite for_range_balance. reflexivity.
Qed.

Lemma monthlyRate_nonneg (a : Q) : 0 <= a -> 0 <= Spec.monthlyRate a.
Proof.
  intro H. unfold Spec.monthlyRate.
  setoid_replace (a / 100 / 12) with (a * (1 # 1200)) by field. lra.
Qed.

Lemma monthlyRate_monotone (a1 a2 : Q) :
  a1 <= a2 -> Spec.monthlyRate a1 <= Spec.monthlyRate a2.
Proof.
  intro H. unfold Spec.monthlyRate.
  setoid_replace (a1 / 100 / 12) with (a1 * (1 # 1200)) by field.
  setoid_replace (a2 / 100 / 12) with (a2 * (1 # 1200)) by field. lra.
Qed.

Lemma balance_nonneg (m r : Q) (n : nat) :
  0 <= m -> 0 <= r -> 0 <= Spec.balance m r n.
Proof.
  intros Hm Hr. induction n as [|k IH]; cbn [Spec.balance].
  - lra.
  - apply Qmult_le_0_compat; lra.
Qed.

Lemma balance_rate_monotone (m r1 r2 : Q) (n : nat) :
  0 <= m -> 0 <= r1 -> r1 <= r2 ->
  Spec.balance m r1 n <= Spec.balance m r2 n.
Proof.
  intros Hm Hr Hle. induction n as [|k IH]; cbn [Spec.balance].
  - lra.
  - pose proof (balance_nonneg m r1 k Hm Hr).
    apply Qmult_le_compat_nonneg; split; lra.
Qed.

(** C2: for every monthly amount, annual rate and years >= 0,
    [savings_projection] returns the balance of the recurrence after
    years * 12 periods (the balance starts at 0 and each period becomes
    (balance + monthlyAmount) * (1 + annualRatePercent/100/12)); for
    years = 0 the result is 0; for a monthly amount >= 0 and a rate >= 0 the
    result is >= 0. *)
Theorem savings_projection_recurrence (monthly_saving annual_rate_pct : Q) (years : Z) :
  (0 <= years)%Z ->
  savings_projection monthly_saving annual_rate_pct years =
    Ok (Spec.balance monthly_saving (Spec.monthlyRate annual_rate_pct)
          (Z.to_nat years * 12))
  /\ savings_projection monthly_saving annual_rate_pct 0 = Ok 0
  /\ (0 <= monthly_saving -> 0 <= annual_rate_pct ->
      exists fv, savings_projection monthly_saving annual_rate_pct years = Ok fv
                 /\ 0 <= fv).
Proof.
  intro Hy. rewrite !savings_projection_unfold.
  replace (Z.to_nat (years * 12)) with (Z.to_nat years * 12)%nat
    by (rewrite Z2Nat.inj_mul by lia; reflexivity).
  split; [reflexivity|]. split; [reflexivity|].
  intros Hm Ha. eexists. split; [reflexivity|].
  apply balance_nonneg; [exact Hm | now apply monthlyRate_nonneg].
Qed.

Lemma savings_projection_recurrence_witness :
  (0 <= 1)%Z /\ 0 <= 5000 /\ 0 <= 12
  /\ savings_projection 5000 12 1 =
       Ok (Spec.balance 5000 (Spec.monthlyRate 12) (Z.to_nat 1 * 12))
  /\ savings_projection 5000 12 0 = Ok 0
  /\ exists fv, savings_projection 5000 12 1 = Ok fv /\ 0 <= fv.
Proof.
  split; [lia|]. split; [lra|]. split; [lra|].
  destruct (savings_projection_recurrence 5000 12 1) as (H1 & H2 & H3); [lia|].
  split; [exact H1|]. split; [exact H2|]. apply H3; lra.
Defined.

(** ** Lump sum *)

Lemma lump_sum_growth_unfold (principal a : Q) (years : Z) :
  lump_sum_growth principal a years =
  (p <- py_pow (1 + a / 100) years ;; Ok (principal * p)).
Proof. unfold lump_sum_growth. rewrite py_div_100. reflexivity. Qed.




(** ** Required monthly contribution *)

Lemma sip_needed_unfold (goal a : Q) (years : Z) :
  sip_needed goal a years =
  if Qeq_bool (Spec.monthlyRate a) 0 then
    fn <- py_float (years * 12) ;; py_div goal fn
  else
    p <- py_pow (1 + Spec.monthlyRate a) (years * 12) ;;
    py_div (goal * Spec.monthlyRate a) (p - 1).
Proof.
  unfold sip_needed. rewrite py_div_100. cbn [bind].
  rewrite py_div_12. cbn [bind]. cbv zeta. fold (Spec.monthlyRate a).
  destruct (Qeq_bool (Spec.monthlyRate a) 0); [reflexivity|].
  destruct (py_pow (1 + Spec.monthlyRate a) (years * 12)) as [p|e]; cbn [bind];
    [|reflexivity].
  destruct (py_div (goal * Spec.monthlyRate a) (p - 1)); reflexivity.
Qed.

(** In exact arithmetic a returned payment is the value of the formula. *)
Lemma sip_needed_returns_formula (goal a : Q) (years : Z) (payment : Q) :
  sip_needed goal a years = Ok payment ->
  (Spec.monthlyRate a == 0 -> payment == goal / inject_Z (years * 12))
  /\ (~ Spec.monthlyRate a == 0 ->
      ~ (1 + Spec.monthlyRate a) ^ (years * 12) - 1 == 0
      /\ payment == goal * Spec.monthlyRate a
                    / ((1 + Spec.monthlyRate a) ^ (years * 12) - 1)).
Proof.
  rewrite sip_needed_unfold. set (r := Spec.monthlyRate a).
  destruct (Qeq_bool r 0) eqn:E; qbool; intro H.
  - split; [intros _ | intro X; contradiction].
    destruct (py_float (years * 12)) as [fn|e] eqn:Ef; [|discriminate].
    apply py_float_inv in Ef. destruct Ef as [-> _]. cbn in H.
    apply py_div_inv in H. destruct H as [_ ->]. reflexivity.
  - split; [intro X; contradiction | intros _].
    destruct (py_pow (1 + r) (years * 12)) as [p|e] eqn:Ep; [|discriminate].
    cbn in H. apply py_pow_inv in Ep. destruct Ep as (_ & Hp & _).
    apply py_div_inv in H. destruct H as [Hd ->].
    rewrite Hp in Hd. split; [exact Hd|]. rewrite Hp. reflexivity.
Qed.

(** In exact arithmetic the round trip holds wherever a payment is
    returned at a positive rate. *)
Lemma sip_needed_round_trip_exact (goal a : Q) (years : Z) (payment : Q) :
  0 < a ->
  sip_needed goal a years = Ok payment ->
  Spec.annuityFutureValue payment (Spec.monthlyRate a) (years * 12) == goal.
Proof.
  intros Ha H. apply sip_needed_returns_formula in H.
  assert (Hr : 0 < Spec.monthlyRate a).
  { unfold Spec.monthlyRate.
    setoid_replace (a / 100 / 12) with (a * (1 # 1200)) by field. lra. }
  destruct H as [_ H]. destruct H as [Hd Hp]; [lra|].
  unfold Spec.annuityFutureValue. rewrite Hp. field. split; [exact Hd | lra].
Qed.

(** C10: for every goal and every annual rate, [sip_needed] with
    years = 0 raises [ZeroDivisionError]: with a monthly rate of 0 it
    divides the goal by n = 0, otherwise by (1+r)^0 - 1 = 0. *)
Theorem sip_needed_zero_years (goal_amount annual_rate_pct : Q) :
  sip_needed goal_amount annual_rate_pct 0 = Raise ZeroDivisionError.
Proof.
  rewrite sip_needed_unfold.
  destruct (Qeq_bool (Spec.monthlyRate annual_rate_pct) 0); [reflexivity|].
  change (0 * 12)%Z with 0%Z. rewrite py_pow_exponent_0. reflexivity.
Qed.

(** ** Monotonicity in the rate *)

(** C7 (as amended): for a principal >= 0, a monthly amount >= 0 and
    years >= 0, and for rates 0 <= r1 <= r2: [savings_projection] returns
    at both rates and its value at r1 is at most its value at r2; and
    whenever [lump_sum_growth] returns at r2 it returns at r1 too, with a
    value that is at most the one at r2. *)
Theorem growth_monotone_in_rate
  (principal monthly_saving r1 r2 : Q) (years : Z) :
  0 <= principal -> 0 <= monthly_saving -> (0 <= years)%Z ->
  0 <= r1 -> r1 <= r2 ->
  (exists s1 s2,
      savings_projection monthly_saving r1 years = Ok s1
      /\ savings_projection monthly_saving r2 years = Ok s2
      /\ s1 <= s2)
  /\ (forall l2, lump_sum_growth principal r2 years = Ok l2 ->
      exists l1, lump_sum_growth principal r1 years = Ok l1 /\ l1 <= l2).
Proof.
  intros Hp Hm Hy Hr Hle.
  assert (H1 : 0 <= r1 / 100) by (apply pct_nonneg; exact Hr).
  assert (H2 : r1 / 100 <= r2 / 100).
  { setoid_replace (r1 / 100) with (r1 * (1 # 100)) by field.
    setoid_replace (r2 / 100) with (r2 * (1 # 100)) by field. lra. }
  assert (H3 : 0 <= (1 + r1 / 100) ^ years) by (apply Qpower_0_le; lra).
  assert (H4 : (1 + r1 / 100) ^ years <= (1 + r2 / 100) ^ years)
    by (apply Qpower_base_monotone; [lra | lra | exact Hy]).
  assert (Hl : forall l2, lump_sum_growth principal r2 years = Ok l2 ->
      exists l1, lump_sum_growth principal r1 years = Ok l1 /\ l1 <= l2).
  { intros l2. rewrite !lump_sum_growth_unfold.
    destruct (py_pow (1 + r2 / 100) years) as [p2|e] eqn:E2; [|discriminate].
    cbn [bind]. intro H. inversion H. subst l2.
    apply py_pow_inv in E2. destruct E2 as (Hc & Hv & Ho).
    destruct (py_pow_safe (1 + r1 / 100) years) as (p1 & -> & Hp1).
    - exact Hc.
    - lia.
    - destruct Ho as [-> | Ho]; [reflexivity|].
      rewrite Qabs_pos by exact H3.
      rewrite Qabs_pos in Ho by lra. lra.
    - cbn [bind]. eexists. split; [reflexivity|].
      rewrite Hp1, Hv. apply Qmult_le_compat_nonneg; split; lra. }
  split.
  - rewrite !savings_projection_unfold. do 2 eexists.
    repeat (split; [reflexivity|]).
    apply balance_rate_monotone;
      [exact Hm | now apply monthlyRate_nonneg | now apply monthlyRate_monotone].
  - exact Hl.
Qed.

Lemma growth_monotone_in_rate_witness :
  0 <= 100000 /\ 0 <= 5000 /\ (0 <= 1)%Z /\ 0 <= 8 /\ 8 <= 12
  /\ (exists s1 s2,
      savings_projection 5000 8 1 = Ok s1
      /\ savings_projection 5000 12 1 = Ok s2
      /\ s1 <= s2)
  /\ exists l1 l2,
      lump_sum_growth 100000 8 1 = Ok l1
      /\ lump_sum_growth 100000 12 1 = Ok l2
      /\ l1 <= l2.
Proof.
  split; [lra|]. split; [lra|]. split; [lia|]. split; [lra|]. split; [lra|].
  destruct (growth_monotone_in_rate 100000 5000 8 12 1) as (Hs & Hl);
    try lra; try lia.
  split; [exact Hs|].
  destruct (Hl _ eq_refl) as (l1 & Hl1 & Hle).
  exists l1. eexists. split; [exact Hl1|]. split; [reflexivity | exact Hle].
Defined.

(** C7 fails as stated.  With a principal of -100 over one year the rates
    0 <= 10 give -100 and then -110; with a monthly amount of -100 over one
    year the rates 0 <= 12 give -1200 and then less than -1200; with a
    principal of 100 over -1 years the rates 0 <= 100 give 100 and then 50;
    and with a principal of 1 over 1024 years the rate 0 gives 1 where the
    rate 100 raises [OverflowError] and gives no value to compare. *)
Lemma growth_in_rate_counterexample :
  0 <= 0 /\ 0 <= 10 /\ 0 <= 12 /\ 0 <= 100
  /\ returns (lump_sum_growth (-100) 0 1) (-100)
  /\ returns (lump_sum_growth (-100) 10 1) (-110)
  /\ ~ (-100 <= -110)
  /\ returns (savings_projection (-100) 0 1) (-1200)
  /\ (exists s2, savings_projection (-100) 12 1 = Ok s2 /\ ~ (-1200 <= s2))
  /\ returns (lump_sum_growth 100 0 (-1)) 100
  /\ returns (lump_sum_growth 100 100 (-1)) 50
  /\ ~ (100 <= 50)
  /\ returns (lump_sum_growth 1 0 1024) 1
  /\ lump_sum_growth 1 100 1024 = Raise OverflowError.
Proof.
  repeat (split; [first [lra | vm_compute; reflexivity | vm_compute; discriminate]|]).
  split.
  { eexists. split; [vm_compute; reflexivity|]. vm_compute. tauto. }
  repeat (split; [first [lra | vm_compute; reflexivity | vm_compute; discriminate]|]).
  vm_compute. reflexivity.
Qed.

(** ** The tax estimator on binary64 numbers *)

Lemma b64_scenario_3 :
  Binary64.estimate_tax 800000 Binary64.example_slabs = Ok 72500%float.
Proof. vm_compute. reflexivity. Qed.

Lemma b64_negative_rate :
  Binary64.estimate_tax 100 [(None, (-10)%float)] = Ok (-10)%float.
Proof. vm_compute. reflexivity. Qed.

Lemma b64_savings_zero_years (m a : float) :
  Binary64.savings_projection m a 0 = Ok 0%float.
Proof. reflexivity. Qed.

Lemma b64_savings_negative_amount :
  Binary64.savings_projection (-100) 0 1 = Ok (-1200)%float
  /\ exists s2, Binary64.savings_projection (-100) 12 1 = Ok s2
                /\ PrimFloat.ltb s2 (-1200) = true.
Proof.
  split; [vm_compute; reflexivity|].
  eexists. split; vm_compute; reflexivity.
Qed.

(** A positive annual rate of 2^-50 percent gives a non-zero monthly rate
    that [1 + r] absorbs: in binary64 the divisor [(1 + r) ** n - 1] of
    [sip_needed] is then 0 although the rate is positive. *)
Lemma b64_tiny_rate_absorbed :
  let rate := (1 / 1125899906842624)%float in
  PrimFloat.ltb 0 rate = true
  /\ PrimFloat.eqb (rate / 100 / 12) 0 = false
  /\ (1 + rate / 100 / 12)%float = 1%float.
Proof. vm_compute. repeat split. Qed.

Lemma b64_slab_step_ok (st : Binary64.tax_state) (s : Binary64.slab) :
  exists st' fl, Binary64.slab_step st s = Ok (st', fl).
Proof.
  destruct s as [limit rate]. unfold Binary64.slab_step.
  match goal with |- context [if ?b then _ else _] => destruct b end; cbn; eauto.
Qed.

(** X23: On binary64 numbers too, whatever the income and the table hold (NaN and
    infinities included), the loop ends without raising. *)
Lemma b64_estimate_tax_never_raises (income : float) (slabs : list Binary64.slab) :
  exists t, Binary64.estimate_tax income slabs = Ok t.
Proof.
  unfold Binary64.estimate_tax.
  enough (H : forall st, exists st', Binary64.for_slabs st slabs = Ok st').
  { destruct (H (Binary64.mk_state 0 0 income)) as [st' ->]. cbn. eauto. }
  induction slabs as [|s rest IH]; intro st.
  - now exists st.
  - cbn [Binary64.for_slabs]. destruct (b64_slab_step_ok st s) as (st' & fl & ->).
    cbn. destruct fl; [apply IH | eauto].
Qed.

Lemma b64_above_zero (x : float) :
  PrimFloat.ltb 0 x = Binary64.SFpositive (Prim2SF x).
Proof.
  rewrite ltb_spec. change (Prim2SF 0) with (S754_zero false).
  destruct (Prim2SF x) as [s|s| |s m e]; try destruct s; reflexivity.
Qed.

Lemma b64_le_zero_not_above (x : float) :
  PrimFloat.leb x 0 = true -> Binary64.SFpositive (Prim2SF x) = false.
Proof.
  rewrite leb_spec. change (Prim2SF 0) with (S754_zero false).
  destruct (Prim2SF x) as [s|s| |s m e]; try destruct s; cbn; congruence.
Qed.

Lemma b64_above_positive (w x : float) :
  Binary64.SFpositive (Prim2SF w) = true -> PrimFloat.ltb w x = true ->
  Binary64.SFpositive (Prim2SF x) = true.
Proof.
  rewrite ltb_spec.
  destruct (Prim2SF w) as [s|s| |s m e]; try destruct s; cbn; try congruence;
    destruct (Prim2SF x) as [s'|s'| |s' m' e']; try destruct s'; cbn; congruence.
Qed.

Lemma b64_slab_step_skip (st : Binary64.tax_state) (limit : option float) (rate : float) :
  PrimFloat.leb (Binary64.remaining st) 0 = true ->
  Binary64.slab_step st (limit, rate) =
  Ok (Binary64.mk_state (Binary64.tax st)
        (Binary64.next_prev_limit limit (Binary64.prev_limit st))
        (Binary64.remaining st), Next).
Proof.
  intro H. unfold Binary64.slab_step.
  destruct limit as [l|]; unfold Binary64.py_le.
  - set (w := PrimFloat.sub l (Binary64.prev_limit st)).
    set (rem := Binary64.remaining st) in *.
    assert (E : PrimFloat.leb (Binary64.py_max 0 (Binary64.py_min rem w)) 0 = true).
    { unfold Binary64.py_max, Binary64.py_min, Binary64.py_lt.
      pose proof (b64_le_zero_not_above rem H) as Hrem.
      destruct (PrimFloat.ltb w rem) eqn:Ew.
      - destruct (PrimFloat.ltb 0 w) eqn:E0; [|reflexivity].
        rewrite b64_above_zero in E0.
        pose proof (b64_above_positive w rem E0 Ew). congruence.
      - destruct (PrimFloat.ltb 0 rem) eqn:E0; [|reflexivity].
        rewrite b64_above_zero in E0. congruence. }
    rewrite E. reflexivity.
  - rewrite H. reflexivity.
Qed.

(** X22: On binary64 numbers too, an income that compares <= 0 gives a tax of
    exactly 0.0, whatever the table holds. *)
Lemma b64_estimate_tax_nonpositive_income (income : float) (slabs : list Binary64.slab) :
  PrimFloat.leb income 0 = true ->
  Binary64.estimate_tax income slabs = Ok 0%float.
Proof.
  intro H. unfold Binary64.estimate_tax.
  enough (G : forall st, PrimFloat.leb (Binary64.remaining st) 0 = true ->
              exists p, Binary64.for_slabs st slabs =
                        Ok (Binary64.mk_state (Binary64.tax st) p (Binary64.remaining st))).
  { destruct (G (Binary64.mk_state 0 0 income) H) as [p ->]. reflexivity. }
  induction slabs as [|[limit rate] rest IH]; intros st Hst.
  - exists (Binary64.prev_limit st). destruct st; reflexivity.
  - cbn [Binary64.for_slabs]. rewrite b64_slab_step_skip by exact Hst. cbn.
    apply (IH (Binary64.mk_state _ _ _)). exact Hst.
Qed.

(** * Further properties of the calculators *)

(** ** The savings loop in closed form *)

Lemma balance_closed_form (m r : Q) (n : nat) :
  ~ r == 0 ->
  Spec.balance m r n == m * (1 + r) * ((1 + r) ^ Z.of_nat n - 1) / r.
Proof.
  intro Hr. induction n as [|k IH].
  - cbn [Spec.balance]. change ((1 + r) ^ Z.of_nat 0) with 1. field. exact Hr.
  - cbn [Spec.balance]. rewrite IH, Qpower_succ. field. exact Hr.
Qed.

Lemma balance_zero_rate (m r : Q) (n : nat) :
  r == 0 -> Spec.balance m r n == m * inject_Z (Z.of_nat n).
Proof.
  intro Hr. induction n as [|k IH].
  - cbn. ring.
  - cbn [Spec.balance]. rewrite IH, Nat2Z.inj_succ. unfold Z.succ.
    rewrite inject_Z_plus, Hr. change (inject_Z 1) with 1. ring.
Qed.

(** X1: The deposit-then-compound loop of [savings_projection] is the
    annuity-due sum: for years >= 0 and a monthly rate r <> 0 it returns
    m * (1+r) * ((1+r)^n - 1) / r with n = years * 12. *)
Theorem savings_projection_closed_form (monthly_saving annual_rate_pct : Q) (years : Z) :
  (0 <= years)%Z ->
  ~ Spec.monthlyRate annual_rate_pct == 0 ->
  returns (savings_projection monthly_saving annual_rate_pct years)
          (monthly_saving * (1 + Spec.monthlyRate annual_rate_pct)
           * ((1 + Spec.monthlyRate annual_rate_pct) ^ (years * 12) - 1)
           / Spec.monthlyRate annual_rate_pct).
Proof.
  intros Hy Hr. rewrite savings_projection_unfold. cbn [returns].
  rewrite balance_closed_form by exact Hr.
  rewrite Z2Nat.id by lia. reflexivity.
Qed.

Lemma savings_projection_closed_form_witness :
  (0 <= 1)%Z /\ ~ Spec.monthlyRate 12 == 0
  /\ returns (savings_projection 5000 12 1)
             (5000 * (1 + Spec.monthlyRate 12)
              * ((1 + Spec.monthlyRate 12) ^ (1 * 12) - 1) / Spec.monthlyRate 12).
Proof.
  split; [lia|]. split; [vm_compute; discriminate|].
  apply (savings_projection_closed_form 5000 12 1); [lia | vm_compute; discriminate].
Defined.

(** X2: With a rate of 0 nothing compounds: for years >= 0 the result is the
    sum of the deposits, monthly_saving * 12 * years. *)
Theorem savings_projection_zero_rate (monthly_saving : Q) (years : Z) :
  (0 <= years)%Z ->
  returns (savings_projection monthly_saving 0 years)
          (monthly_saving * inject_Z (12 * years)).
Proof.
  intro Hy. rewrite savings_projection_unfold. cbn [returns].
  rewrite balance_zero_rate by reflexivity.
  rewrite Z2Nat.id by lia. replace (years * 12)%Z with (12 * years)%Z by lia.
  reflexivity.
Qed.

Lemma savings_projection_zero_rate_witness :
  (0 <= 2)%Z /\ returns (savings_projection 100 0 2) (100 * inject_Z (12 * 2)).
Proof.
  split; [lia|]. apply (savings_projection_zero_rate 100 2). lia.
Defined.

(** X3: A period of zero or fewer years runs the loop no times: the result is
    0 whatever the amount and the rate, and nothing is raised. *)
Theorem savings_projection_no_period (monthly_saving annual_rate_pct : Q) (years : Z) :
  (years <= 0)%Z ->
  savings_projection monthly_saving annual_rate_pct years = Ok 0.
Proof.
  intro Hy. rewrite savings_projection_unfold.
  replace (Z.to_nat (years * 12)) with O by lia. reflexivity.
Qed.

Lemma savings_projection_no_period_witness :
  (-3 <= 0)%Z /\ savings_projection 5000 12 (-3) = Ok 0.
Proof.
  split; [lia|]. apply (savings_projection_no_period 5000 12 (-3)). lia.
Defined.

Lemma balance_scale (k m r : Q) (n : nat) :
  Spec.balance (k * m) r n == k * Spec.balance m r n.
Proof.
  induction n as [|j IH]; cbn [Spec.balance].
  - ring.
  - rewrite IH. ring.
Qed.

Lemma balance_add (m1 m2 r : Q) (n : nat) :
  Spec.balance (m1 + m2) r n == Spec.balance m1 r n + Spec.balance m2 r n.
Proof.
  induction n as [|j IH]; cbn [Spec.balance].
  - ring.
  - rewrite IH. ring.
Qed.

(** X4: [savings_projection] is linear in the monthly amount: k times the
    deposit gives k times the result, and the projection of a sum of two
    deposits is the sum of their projections. *)
Theorem savings_projection_linear (k m1 m2 annual_rate_pct : Q) (years : Z) :
  exists f1 f2 fk fsum,
    savings_projection m1 annual_rate_pct years = Ok f1
    /\ savings_projection m2 annual_rate_pct years = Ok f2
    /\ savings_projection (k * m1) annual_rate_pct years = Ok fk
    /\ savings_projection (m1 + m2) annual_rate_pct years = Ok fsum
    /\ fk == k * f1 /\ fsum == f1 + f2.
Proof.
  rewrite !savings_projection_unfold. do 4 eexists.
  repeat (split; [reflexivity|]). split; [apply balance_scale | apply balance_add].
Qed.

(** ** Lump sum: errors and composition *)

Lemma rate_minus_100 (a : Q) : 1 + a / 100 == 0 <-> a == -100.
Proof.
  setoid_replace (a / 100) with (a * (1 # 100)) by field.
  split; intro; lra.
Qed.



(** X6: [lump_sum_growth] raises [ZeroDivisionError] exactly when the rate is
    -100% and the years are negative and convert to a float: the base 1 + r
    is then 0 and Python refuses to raise 0.0 to a negative power. *)
Theorem lump_sum_growth_zero_division_iff (principal annual_rate_pct : Q) (years : Z) :
  lump_sum_growth principal annual_rate_pct years = Raise ZeroDivisionError
  <-> (annual_rate_pct == -100 /\ (years < 0)%Z /\ (Z.abs years < int_overflow)%Z).
Proof.
  rewrite lump_sum_growth_unfold, <- rate_minus_100, <- py_pow_zero_division.
  destruct (py_pow (1 + annual_rate_pct / 100) years) as [p|e]; cbn [bind].
  - split; discriminate.
  - tauto.
Qed.



(** ** Retirement projection *)

Lemma savings_projection_never_raises (m a : Q) (years : Z) :
  exists fv, savings_projection m a years = Ok fv.
Proof. rewrite savings_projection_unfold. eauto. Qed.

(** X9: [retirement_projection] raises [ZeroDivisionError] exactly where its
    lump-sum part does, at a return of -100% with negative years to retire
    that convert to a float. *)
Theorem retirement_projection_zero_division_iff
  (current_savings monthly_contrib : Q) (years_to_retire : Z) (annual_return_pct : Q) :
  retirement_projection current_savings monthly_contrib years_to_retire annual_return_pct
    = Raise ZeroDivisionError
  <-> (annual_return_pct == -100 /\ (years_to_retire < 0)%Z
       /\ (Z.abs years_to_retire < int_overflow)%Z).
Proof.
  unfold retirement_projection.
  rewrite lump_sum_growth_unfold, <- rate_minus_100, <- py_pow_zero_division.
  destruct (py_pow (1 + annual_return_pct / 100) years_to_retire) as [p|e];
    cbn [bind].
  - destruct (savings_projection_never_raises monthly_contrib annual_return_pct
                years_to_retire) as [fv ->].
    cbn. split; discriminate.
  - tauto.
Qed.

Lemma balance_at_least_deposits (m r : Q) (n : nat) :
  0 <= m -> 0 <= r -> m * inject_Z (Z.of_nat n) <= Spec.balance m r n.
Proof.
  intros Hm Hr. induction n as [|k IH].
  - change (inject_Z (Z.of_nat 0)) with 0. cbn [Spec.balance]. lra.
  - cbn [Spec.balance]. rewrite Nat2Z.inj_succ. unfold Z.succ.
    rewrite inject_Z_plus. change (inject_Z 1) with 1.
    pose proof (balance_nonneg m r k Hm Hr) as Hb.
    assert (0 <= (Spec.balance m r k + m) * r)
      by (apply Qmult_le_0_compat; lra).
    setoid_replace ((Spec.balance m r k + m) * (1 + r))
      with (Spec.balance m r k + m + (Spec.balance m r k + m) * r) by ring.
    lra.
Qed.

(** X10: With non-negative savings, contributions and return, and years >= 0,
    a corpus that [retirement_projection] returns is never below what was
    paid in: the current savings plus 12 * years monthly contributions. *)
Theorem retirement_projection_at_least_paid_in
  (current_savings monthly_contrib : Q) (years_to_retire : Z) (annual_return_pct : Q) :
  0 <= current_savings -> 0 <= monthly_contrib ->
  (0 <= years_to_retire)%Z -> 0 <= annual_return_pct ->
  forall corpus,
    retirement_projection current_savings monthly_contrib years_to_retire
      annual_return_pct = Ok corpus ->
    current_savings + monthly_contrib * inject_Z (12 * years_to_retire) <= corpus.
Proof.
  intros Hc Hm Hy Ha corpus. unfold retirement_projection.
  rewrite lump_sum_growth_unfold.
  destruct (py_pow (1 + annual_return_pct / 100) years_to_retire) as [p|e] eqn:E;
    [|discriminate].
  cbn [bind]. rewrite savings_projection_unfold. cbn [bind].
  intro H. inversion H. subst corpus.
  apply py_pow_inv in E. destruct E as (_ & Hv & _). rewrite Hv.
  pose proof (pct_nonneg annual_return_pct Ha) as Hr.
  assert (H1 : 1 <= (1 + annual_return_pct / 100) ^ years_to_retire)
    by (apply Qpower_1_le; [lra | exact Hy]).
  assert (H2 : current_savings * 1
               <= current_savings * (1 + annual_return_pct / 100) ^ years_to_retire)
    by (apply Qmult_le_compat_nonneg; split; lra).
  pose proof (balance_at_least_deposits monthly_contrib
                (Spec.monthlyRate annual_return_pct)
                (Z.to_nat (years_to_retire * 12)) Hm
                (monthlyRate_nonneg _ Ha)) as H3.
  rewrite Z2Nat.id in H3 by lia.
  replace (12 * years_to_retire)%Z with (years_to_retire * 12)%Z by lia.
  lra.
Qed.

Lemma retirement_projection_at_least_paid_in_witness :
  0 <= 200000 /\ 0 <= 5000 /\ (0 <= 20)%Z /\ 0 <= 8 /\
  exists corpus,
    retirement_projection 200000 5000 20 8 = Ok corpus
    /\ 200000 + 5000 * inject_Z (12 * 20) <= corpus.
Proof.
  split; [lra|]. split; [lra|]. split; [lia|]. split; [lra|].
  eexists. split; [vm_compute; reflexivity|].
  apply (retirement_projection_at_least_paid_in 200000 5000 20 8);
    [lra | lra | lia | lra | vm_compute; reflexivity].
Defined.

(** ** More on the tax walk *)

(** The tax that a run of the loop returns. *)
Lemma for_slabs_after_unbounded (pre post : list slab) (rate : Q) (st : tax_state) :
  (st' <- for_slabs st (pre ++ (None, rate) :: post) ;; Ok (tax st'))
  = (st' <- for_slabs st (pre ++ [(None, rate)]) ;; Ok (tax st')).
Proof.
  revert st. induction pre as [|s pre IH]; intro st.
  - cbn [app for_slabs]. unfold slab_step. unfold py_le.
    destruct (Qle_bool (remaining st) 0) eqn:E; cbn.
    + qbool.
      destruct (for_slabs_nothing_left post
                  (mk_state (tax st) (prev_limit st) (remaining st))) as [p ->];
        [exact E|].
      reflexivity.
    + destruct (Qle_bool (remaining st - remaining st) 0) eqn:B; [reflexivity|].
      qbool. lra.
  - cbn [app for_slabs].
    destruct (slab_step st s) as [[st' fl]|e]; cbn; [|reflexivity].
    destruct fl; [apply IH | reflexivity].
Qed.

(** X11: Slabs after an unbounded slab never count: the tax is the same as with
    the table cut after its first unbounded slab. *)
Theorem estimate_tax_ignores_slabs_after_unbounded
  (taxable_income : Q) (pre post : list slab) (rate : Q) :
  estimate_tax taxable_income (pre ++ (None, rate) :: post)
  = estimate_tax taxable_income (pre ++ [(None, rate)]).
Proof.
  unfold estimate_tax. apply for_slabs_after_unbounded.
Qed.

Lemma pct_within (top rate : Q) :
  0 <= rate /\ rate <= top -> 0 <= rate / 100 /\ rate / 100 <= top / 100.
Proof.
  intros [H1 H2].
  setoid_replace (rate / 100) with (rate * (1 # 100)) by field.
  setoid_replace (top / 100) with (top * (1 # 100)) by field. lra.
Qed.

(** From a state with a non-negative remainder, the tax added by the rest of
    the loop is at most the remainder at the top rate. *)
Lemma for_slabs_tax_bound (top : Q) (slabs : list slab) :
  0 <= top -> rates_within top slabs ->
  forall st st', 0 <= remaining st -> for_slabs st slabs = Ok st' ->
                 tax st' - tax st <= remaining st * (top / 100).
Proof.
  intro Htop. apply pct_nonneg in Htop.
  induction 1 as [|[limit rate] rest Hrate _ IH]; intros st st' Hrem H.
  - inversion H. subst st'.
    assert (0 <= remaining st * (top / 100))
      by (apply Qmult_le_0_compat; assumption).
    lra.
  - cbn [snd] in Hrate. apply pct_within in Hrate. destruct Hrate as [Hp0 Hp1].
    set (p := rate / 100) in *. set (c := top / 100) in *.
    cbn [for_slabs] in H. unfold slab_step in H. rewrite py_div_100 in H.
    fold p in H.
    set (a := match limit with
              | Some l => py_max 0 (py_min (remaining st) (l - prev_limit st))
              | None => remaining st
              end) in *.
    assert (Ha : 0 < a -> a <= remaining st).
    { subst a. destruct limit as [l|]; [|lra].
      apply (taxable_le_remaining (l - prev_limit st) (remaining st)). }
    unfold py_le in H.
    destruct (Qle_bool a 0) eqn:Ea; cbn in H; qbool.
    + apply IH in H; cbn in *; lra.
    + specialize (Ha Ea).
      assert (a * p <= a * c) by (apply Qmult_le_compat_nonneg; split; lra).
      assert (0 <= (remaining st - a) * c) by (apply Qmult_le_0_compat; lra).
      assert (remaining st * c == a * c + (remaining st - a) * c) by ring.
      destruct (Qle_bool (remaining st - a) 0) eqn:B; cbn in H; qbool.
      * inversion H. subst st'. cbn. lra.
      * apply IH in H; cbn in *; lra.
Qed.

(** X12: The tax never exceeds the income at the top rate of the table: with all
    rates between 0 and [top] and an income >= 0, the tax is at most
    income * top / 100, on any table. *)
Theorem estimate_tax_at_most_top_rate (top taxable_income : Q) (slabs : list slab) :
  0 <= top -> rates_within top slabs -> 0 <= taxable_income ->
  exists t, estimate_tax taxable_income slabs = Ok t
            /\ t <= taxable_income * (top / 100).
Proof.
  intros Htop Hrates Hinc. unfold estimate_tax.
  destruct (for_slabs_ok slabs (mk_state 0 0 taxable_income)) as [st' E].
  rewrite E. cbn. exists (tax st'). split; [reflexivity|].
  pose proof (for_slabs_tax_bound top slabs Htop Hrates
                (mk_state 0 0 taxable_income) st' Hinc E) as H.
  cbn in H. lra.
Qed.

Lemma example_slabs_rates_within : rates_within 30 example_slabs.
Proof. repeat constructor; cbn; lra. Qed.

Lemma estimate_tax_at_most_top_rate_witness :
  0 <= 30 /\ rates_within 30 example_slabs /\ 0 <= 800000 /\
  exists t, estimate_tax 800000 example_slabs = Ok t /\ t <= 800000 * (30 / 100).
Proof.
  split; [lra|]. split; [exact example_slabs_rates_within|]. split; [lra|].
  apply (estimate_tax_at_most_top_rate 30 800000 example_slabs);
    [lra | exact example_slabs_rates_within | lra].
Defined.

Lemma taxable_none_then_nothing_left (w rem1 rem2 : Q) :
  py_max 0 (py_min rem1 w) <= 0 -> 0 < py_max 0 (py_min rem2 w) -> rem1 <= 0.
Proof. py_cases; lra. Qed.

(** Two runs over the same table from the same previous bound: the tax
    added by the run with more left to tax exceeds the tax added by the
    other by at most the difference of the remainders at the top rate. *)
Lemma for_slabs_increase_bound (top : Q) (slabs : list slab) :
  0 <= top -> rates_within top slabs ->
  forall (prev t1 r1 t2 r2 : Q) (s1 s2 : tax_state),
    r1 <= r2 ->
    for_slabs (mk_state t1 prev r1) slabs = Ok s1 ->
    for_slabs (mk_state t2 prev r2) slabs = Ok s2 ->
    (tax s2 - t2) - (tax s1 - t1) <= (r2 - r1) * (top / 100).
Proof.
  intros Htop Hall. pose proof (pct_nonneg top Htop) as Hc.
  induction Hall as [|[limit rate] rest Hrate Hrest IH];
    intros prev t1 r1 t2 r2 s1 s2 Hr H1 H2.
  - inversion H1; inversion H2. cbn.
    assert (0 <= (r2 - r1) * (top / 100)) by (apply Qmult_le_0_compat; lra).
    lra.
  - pose proof (for_slabs_tax_bound top rest Htop Hrest) as Bound.
    cbn [snd] in Hrate. apply pct_within in Hrate. destruct Hrate as [Hp0 Hp1].
    set (p := rate / 100) in *. set (c := top / 100) in *.
    cbn [for_slabs] in H1, H2. unfold slab_step in H1, H2.
    cbn [tax prev_limit remaining] in *.
    rewrite py_div_100 in H1, H2. fold p in H1, H2.
    destruct limit as [l|].
    + pose proof (taxable_nonneg (l - prev) r1) as N1.
      pose proof (taxable_le_remaining (l - prev) r1) as L1.
      pose proof (taxable_le_remaining (l - prev) r2) as L2.
      pose proof (taxable_monotone (l - prev) r1 r2 Hr) as M.
      pose proof (remainder_monotone (l - prev) r1 r2 Hr) as R.
      pose proof (taxable_none_then_nothing_left (l - prev) r1 r2) as Z.
      cbv zeta in N1, L1, L2, M, R.
      set (a1 := py_max 0 (py_min r1 (l - prev))) in *.
      set (a2 := py_max 0 (py_min r2 (l - prev))) in *.
      unfold py_le in H1, H2.
      destruct (Qle_bool a1 0) eqn:E1; destruct (Qle_bool a2 0) eqn:E2;
        cbn in H1, H2; qbool; try lra.
      * eapply IH; [exact Hr | exact H1 | exact H2].
      * specialize (Z E1 E2). specialize (L2 E2).
        destruct (for_slabs_nothing_left rest (mk_state t1 l r1)) as [q Hq];
          [cbn; lra|].
        rewrite Hq in H1. inversion H1. subst s1. cbn [tax].
        assert (a2 * p <= a2 * c) by (apply Qmult_le_compat_nonneg; split; lra).
        assert (0 <= (r2 - a2) * c) by (apply Qmult_le_0_compat; lra).
        assert (0 <= (- r1) * c) by (apply Qmult_le_0_compat; lra).
        assert ((r2 - r1) * c == a2 * c + (r2 - a2) * c + (- r1) * c) by ring.
        destruct (Qle_bool (r2 - a2) 0) eqn:B2; cbn in H2; qbool.
        -- inversion H2. subst s2. cbn [tax]. lra.
        -- apply Bound in H2; cbn in *; lra.
      * specialize (L1 E1). specialize (L2 E2).
        assert ((a2 - a1) * p <= (a2 - a1) * c)
          by (apply Qmult_le_compat_nonneg; split; lra).
        assert ((a2 - a1) * p == a2 * p - a1 * p) by ring.
        assert (0 <= ((r2 - a2) - (r1 - a1)) * c)
          by (apply Qmult_le_0_compat; lra).
        assert ((r2 - r1) * c == (a2 - a1) * c + ((r2 - a2) - (r1 - a1)) * c)
          by ring.
        destruct (Qle_bool (r1 - a1) 0) eqn:B1;
          destruct (Qle_bool (r2 - a2) 0) eqn:B2; cbn in H1, H2; qbool; try lra.
        -- inversion H1; inversion H2. subst s1 s2. cbn [tax]. lra.
        -- inversion H1. subst s1. cbn [tax].
           apply Bound in H2; [|cbn; lra]. cbn in H2.
           assert ((r2 - a2) * c == ((r2 - a2) - (r1 - a1)) * c + (r1 - a1) * c)
             by ring.
           assert ((r1 - a1) * c == 0)
             by (setoid_replace (r1 - a1) with 0 by lra; ring).
           lra.
        -- pose proof (IH _ _ _ _ _ _ _ R H1 H2) as G. lra.
    + unfold py_le in H1, H2.
      assert ((r2 - r1) * c == r2 * c + (- r1) * c) by ring.
      destruct (Qle_bool r1 0) eqn:E1; destruct (Qle_bool r2 0) eqn:E2;
        cbn in H1, H2; qbool; try lra.
      * eapply IH; [exact Hr | exact H1 | exact H2].
      * destruct (for_slabs_nothing_left rest (mk_state t1 prev r1)) as [q Hq];
          [cbn; lra|].
        rewrite Hq in H1. inversion H1. subst s1. cbn [tax].
        assert (r2 * p <= r2 * c) by (apply Qmult_le_compat_nonneg; split; lra).
        assert (0 <= (- r1) * c) by (apply Qmult_le_0_compat; lra).
        destruct (Qle_bool (r2 - r2) 0) eqn:B2; cbn in H2; qbool; try lra.
        inversion H2. subst s2. cbn [tax]. lra.
      * assert ((r2 - r1) * p <= (r2 - r1) * c)
          by (apply Qmult_le_compat_nonneg; split; lra).
        assert ((r2 - r1) * p == r2 * p - r1 * p) by ring.
        assert ((r2 - r1) * c == r2 * c - r1 * c) by ring.
        destruct (Qle_bool (r1 - r1) 0) eqn:B1;
          destruct (Qle_bool (r2 - r2) 0) eqn:B2; cbn in H1, H2; qbool; try lra.
        inversion H1; inversion H2. subst s1 s2. cbn [tax]. lra.
Qed.

(** X13: A rise in income raises the tax by at most the rise at the top rate:
    with all rates between 0 and [top] and income1 <= income2,
    tax(income2) - tax(income1) <= (income2 - income1) * top / 100, on any
    table.  With rates up to 100 the income after tax never falls when the
    income rises. *)
Theorem estimate_tax_increase_at_most_top_rate
  (top income1 income2 : Q) (slabs : list slab) :
  0 <= top -> rates_within top slabs -> income1 <= income2 ->
  exists t1 t2,
    estimate_tax income1 slabs = Ok t1 /\ estimate_tax income2 slabs = Ok t2
    /\ t2 - t1 <= (income2 - income1) * (top / 100).
Proof.
  intros Htop Hrates Hle. unfold estimate_tax.
  destruct (for_slabs_ok slabs (mk_state 0 0 income1)) as [s1 E1].
  destruct (for_slabs_ok slabs (mk_state 0 0 income2)) as [s2 E2].
  rewrite E1, E2. cbn. exists (tax s1), (tax s2).
  repeat (split; [reflexivity|]).
  pose proof (for_slabs_increase_bound top slabs Htop Hrates _ _ _ _ _ _ _
                Hle E1 E2) as H.
  lra.
Qed.

Lemma estimate_tax_increase_at_most_top_rate_witness :
  0 <= 30 /\ rates_within 30 example_slabs /\ 300000 <= 800000 /\
  exists t1 t2,
    estimate_tax 300000 example_slabs = Ok t1
    /\ estimate_tax 800000 example_slabs = Ok t2
    /\ t2 - t1 <= (800000 - 300000) * (30 / 100).
Proof.
  split; [lra|]. split; [exact example_slabs_rates_within|]. split; [lra|].
  apply (estimate_tax_increase_at_most_top_rate 30 300000 800000 example_slabs);
    [lra | exact example_slabs_rates_within | lra].
Defined.

(** ** Ascending tables: the walk is the textbook band formula *)

Ltac qminmax :=
  repeat match goal with
  | |- context [Qmax ?a ?b] =>
      let H := fresh in
      destruct (Q.max_spec a b) as [[? H]|[? H]]; rewrite H in *; clear H
  | |- context [Qmin ?a ?b] =>
      let H := fresh in
      destruct (Q.min_spec a b) as [[? H]|[? H]]; rewrite H in *; clear H
  | _ : context [Qmax ?a ?b] |- _ =>
      let H := fresh in
      destruct (Q.max_spec a b) as [[? H]|[? H]]; rewrite H in *; clear H
  | _ : context [Qmin ?a ?b] |- _ =>
      let H := fresh in
      destruct (Q.min_spec a b) as [[? H]|[? H]]; rewrite H in *; clear H
  end.

Lemma band_amount_zero (income prev l : Q) :
  income <= prev -> Qmax 0 (Qmin income l - prev) == 0.
Proof. intro H. qminmax; lra. Qed.

Lemma band_amount_bounded (income prev l rem : Q) :
  rem == income - prev ->
  py_max 0 (py_min rem (l - prev)) == Qmax 0 (Qmin income l - prev).
Proof. intro H. rewrite taxable_here_bounded. qminmax; lra. Qed.

Lemma band_tax_zero (income : Q) (slabs : list slab) :
  forall prev, ascending_from prev slabs = true -> income <= prev ->
               band_tax income prev slabs == 0.
Proof.
  induction slabs as [|[[l|] rate] rest IH]; intros prev Hasc Hle.
  - reflexivity.
  - cbn [ascending_from] in Hasc. apply andb_prop in Hasc. destruct Hasc as [Hl Hasc].
    unfold py_lt in Hl. apply negb_true_iff in Hl. qbool.
    cbn [band_tax]. rewrite band_amount_zero by exact Hle.
    rewrite (IH l) by (try exact Hasc; lra). ring.
  - cbn [ascending_from] in Hasc. destruct rest; [|discriminate].
    cbn [band_tax].
    assert (E : Qmax 0 (income - prev) == 0) by (qminmax; lra).
    rewrite E. ring.
Qed.

Lemma for_slabs_band (income : Q) (slabs : list slab) :
  forall (prev : Q) (st : tax_state),
    ascending_from prev slabs = true ->
    prev_limit st = prev ->
    remaining st == income - prev ->
    exists st', for_slabs st slabs = Ok st'
                /\ tax st' == tax st + band_tax income prev slabs.
Proof.
  induction slabs as [|s rest IH]; intros prev st Hasc Hprev Hrem.
  - exists st. split; [reflexivity|]. cbn. ring.
  - destruct (Qlt_le_dec 0 (remaining st)) as [Hpos|Hneg].
    2:{ destruct (for_slabs_nothing_left (s :: rest) st Hneg) as [q Hq].
        rewrite Hq. eexists. split; [reflexivity|]. cbn [tax].
        rewrite band_tax_zero; [ring | exact Hasc | lra]. }
    destruct s as [[l|] rate]; cbn [ascending_from] in Hasc.
    + apply andb_prop in Hasc. destruct Hasc as [Hl Hasc].
      unfold py_lt in Hl. apply negb_true_iff in Hl. qbool.
      cbn [for_slabs band_tax]. unfold slab_step. rewrite py_div_100.
      rewrite Hprev.
      pose proof (band_amount_bounded income prev l (remaining st) Hrem) as Ha.
      set (a := py_max 0 (py_min (remaining st) (l - prev))) in *.
      set (b := Qmax 0 (Qmin income l - prev)) in *.
      assert (Hb : b == Qmin income l - prev) by (subst b; qminmax; lra).
      unfold py_le.
      destruct (Qle_bool a 0) eqn:Ea; qbool.
      { exfalso. revert Hb. qminmax; lra. }
      cbn.
      destruct (Qle_bool (remaining st - a) 0) eqn:B; qbool; cbn.
      * eexists. split; [reflexivity|]. cbn [tax].
        rewrite (band_tax_zero income rest l Hasc).
        -- rewrite Ha. ring.
        -- revert Hb. qminmax; lra.
      * destruct (IH l (mk_state (tax st + a * (rate / 100)) l (remaining st - a)))
          as (st' & Hrun & Htax); [exact Hasc | reflexivity | |].
        -- cbn [remaining]. revert Hb. qminmax; lra.
        -- exists st'. split; [exact Hrun|]. rewrite Htax. cbn [tax].
           rewrite Ha. ring.
    + destruct rest; [|discriminate].
      cbn [for_slabs band_tax]. unfold slab_step. rewrite py_div_100.
      unfold py_le.
      destruct (Qle_bool (remaining st) 0) eqn:Ea; qbool; [lra|]. cbn.
      destruct (Qle_bool (remaining st - remaining st) 0) eqn:B; qbool; [|lra].
      cbn. eexists. split; [reflexivity|]. cbn [tax].
      assert (E : Qmax 0 (income - prev) == remaining st) by (qminmax; lra).
      rewrite E. ring.
Qed.

(** X14: On an ascending table the walk of [estimate_tax] is the textbook
    progressive tax, for every income: the sum over the bands of the part of
    the income inside the band times the band's rate. *)
Theorem estimate_tax_is_band_tax (taxable_income : Q) (slabs : list slab) :
  ascending slabs ->
  returns (estimate_tax taxable_income slabs) (band_tax taxable_income 0 slabs).
Proof.
  intros Hasc. unfold estimate_tax.
  destruct (for_slabs_band taxable_income slabs 0 (mk_state 0 0 taxable_income))
    as (st' & -> & H); [exact Hasc | reflexivity | cbn; ring |].
  cbn in *. rewrite H. ring.
Qed.

Lemma estimate_tax_is_band_tax_witness :
  ascending example_slabs
  /\ returns (estimate_tax 800000 example_slabs) (band_tax 800000 0 example_slabs).
Proof.
  split; [reflexivity|].
  apply (estimate_tax_is_band_tax 800000 example_slabs). reflexivity.
Defined.

Lemma band_tax_capped (top income : Q) (slabs : list slab) :
  bounded_by top slabs -> top <= income ->
  forall prev, band_tax income prev slabs == band_tax top prev slabs.
Proof.
  intros Hb Hle. induction Hb as [|[[l|] rate] rest Hl _ IH]; intro prev.
  - reflexivity.
  - cbn [fst] in Hl. cbn [band_tax]. rewrite (IH l).
    assert (E1 : Qmin income l == l) by (qminmax; lra).
    assert (E2 : Qmin top l == l) by (qminmax; lra).
    rewrite E1, E2. reflexivity.
  - cbn [fst] in Hl. contradiction.
Qed.

(** X15: On an ascending table without an unbounded slab, the income above the
    last bound is not taxed: every income at or above a bound [top] of all
    the slabs pays the tax of [top]. *)
Theorem estimate_tax_capped_without_unbounded
  (top taxable_income : Q) (slabs : list slab) :
  ascending slabs -> bounded_by top slabs -> top <= taxable_income ->
  exists t tcap,
    estimate_tax taxable_income slabs = Ok t
    /\ estimate_tax top slabs = Ok tcap
    /\ t == tcap.
Proof.
  intros Hasc Hb Hle. unfold estimate_tax.
  destruct (for_slabs_band taxable_income slabs 0 (mk_state 0 0 taxable_income))
    as (s1 & -> & H1); [exact Hasc | reflexivity | cbn; ring |].
  destruct (for_slabs_band top slabs 0 (mk_state 0 0 top))
    as (s2 & -> & H2); [exact Hasc | reflexivity | cbn; ring |].
  cbn in *. exists (tax s1), (tax s2). repeat (split; [reflexivity|]).
  rewrite H1, H2, (band_tax_capped top taxable_income slabs Hb Hle 0).
  reflexivity.
Qed.

Lemma estimate_tax_capped_without_unbounded_witness :
  ascending [(Some 250000, 0); (Some 500000, 5)]
  /\ bounded_by 500000 [(Some 250000, 0); (Some 500000, 5)]
  /\ 500000 <= 800000
  /\ exists t tcap,
       estimate_tax 800000 [(Some 250000, 0); (Some 500000, 5)] = Ok t
       /\ estimate_tax 500000 [(Some 250000, 0); (Some 500000, 5)] = Ok tcap
       /\ t == tcap.
Proof.
  assert (Hb : bounded_by 500000 [(Some 250000, 0); (Some 500000, 5)])
    by (repeat constructor; cbn; lra).
  split; [reflexivity|]. split; [exact Hb|]. split; [lra|].
  apply (estimate_tax_capped_without_unbounded 500000 800000);
    [reflexivity | exact Hb | lra].
Defined.

(** ** The savings rate of the profile and the quick advice *)

Lemma py_gt_spec (x y : Q) : py_gt x y = true <-> y < x.
Proof.
  unfold py_gt, py_lt. rewrite negb_true_iff. apply Qle_bool_false.
Qed.

Lemma py_lt_spec (x y : Q) : py_lt x y = true <-> x < y.
Proof.
  unfold py_lt. rewrite negb_true_iff. apply Qle_bool_false.
Qed.

Lemma py_lt_false (x y : Q) : py_lt x y = false <-> y <= x.
Proof.
  unfold py_lt. rewrite negb_false_iff. apply Qle_bool_iff.
Qed.

(** X16: The savings rate printed by [setup_profile] never divides by zero and
    is never negative; with expenses >= 0 it is at most 100. *)
Theorem savings_rate_guess_bounds (income expenses : Q) :
  exists g, savings_rate_guess income expenses = Ok g
            /\ 0 <= g /\ (0 <= expenses -> g <= 100).
Proof.
  unfold savings_rate_guess.
  destruct (py_gt income 0) eqn:E.
  - apply py_gt_spec in E. rewrite py_div_nonzero by lra. cbn [bind].
    eexists. split; [reflexivity|].
    set (q := (income - expenses) / income * 100).
    assert (Hm : q * income == (income - expenses) * 100)
      by (unfold q; field; lra).
    assert (Hq : 0 <= expenses -> q <= 100).
    { intro He. apply Qnot_lt_le. intro Hgt.
      assert (100 * income < q * income) by (apply Qmult_lt_r; assumption).
      lra. }
    split.
    + py_cases; lra.
    + intro He. specialize (Hq He). py_cases; lra.
  - eexists. split; [reflexivity|]. split; lra.
Qed.

Lemma quick_advice_positive_income (user : profile) :
  0 < get (monthly_income user) 0 ->
  quick_advice user =
  let mi := get (monthly_income user) 0 in
  let me := get (monthly_expenses user) 0 in
  let save := py_max 0 (mi - me) in
  let save_pct := save / mi * 100 in
  Ok (SavingsAdvice save save_pct
        (if py_lt save_pct 10 then TipIncreaseSavings
         else if py_lt save_pct 30 then TipAutomate
         else TipEquity)).
Proof.
  intro H. unfold quick_advice. cbv zeta.
  set (mi := get (monthly_income user) 0) in *.
  assert (E1 : py_le mi 0 = false) by (apply Qle_bool_false; exact H).
  assert (E2 : py_gt mi 0 = true) by (apply py_gt_spec; exact H).
  rewrite E1, E2. rewrite py_div_nonzero by lra. reflexivity.
Qed.

(** X17: [quick_advice] never divides by zero: a profile without an income, or
    with an income <= 0, gets the request to set the income up, and only
    then; every other profile gets its savings figures and a tip. *)
Theorem quick_advice_guards_income (user : profile) :
  (exists a, quick_advice user = Ok a)
  /\ (quick_advice user = Ok SetUpIncome <-> get (monthly_income user) 0 <= 0).
Proof.
  destruct (Qlt_le_dec 0 (get (monthly_income user) 0)) as [Hpos|Hneg].
  - rewrite quick_advice_positive_income by exact Hpos. cbv zeta.
    split; [eauto|]. split; [discriminate | lra].
  - unfold quick_advice. cbv zeta.
    assert (E : py_le (get (monthly_income user) 0) 0 = true)
      by (apply Qle_bool_iff; exact Hneg).
    rewrite E. split; [eauto | tauto].
Qed.

(** X19: The savings rate that [setup_profile] prints and the savings share that
    [quick_advice] prints are the same number for a positive income, although
    the one clamps the ratio and the other the difference. *)
Theorem savings_rate_guess_agrees_with_advice (user : profile) :
  let mi := get (monthly_income user) 0 in
  let me := get (monthly_expenses user) 0 in
  0 < mi ->
  exists g save save_pct t,
    savings_rate_guess mi me = Ok g
    /\ quick_advice user = Ok (SavingsAdvice save save_pct t)
    /\ g == save_pct.
Proof.
  intros mi me Hpos. rewrite quick_advice_positive_income by exact Hpos.
  cbv zeta. fold mi me. unfold savings_rate_guess.
  assert (E : py_gt mi 0 = true) by (apply py_gt_spec; exact Hpos).
  rewrite E. rewrite py_div_nonzero by lra. cbn [bind].
  do 4 eexists. split; [reflexivity|]. split; [reflexivity|].
  assert (Hd : (mi - me) / mi * 100 * mi == (mi - me) * 100) by (field; lra).
  assert (Hz : 0 / mi * 100 == 0) by (field; lra).
  assert (Hsign : 0 < (mi - me) / mi * 100 <-> 0 < mi - me).
  { pose proof (Qmult_lt_r 0 ((mi - me) / mi * 100) mi Hpos) as K.
    rewrite Hd in K. split; intro H.
    - apply K in H. lra.
    - apply K. lra. }
  unfold py_max at 1. unfold py_max at 1.
  destruct (py_lt 0 ((mi - me) / mi * 100)) eqn:E1;
    [apply py_lt_spec in E1 | apply py_lt_false in E1];
    (destruct (py_lt 0 (mi - me)) eqn:E2;
     [apply py_lt_spec in E2 | apply py_lt_false in E2]).
  - reflexivity.
  - exfalso. apply Hsign in E1. lra.
  - exfalso. apply Hsign in E2. lra.
  - rewrite Hz. reflexivity.
Qed.

Lemma savings_rate_guess_agrees_with_advice_witness :
  0 < 50000 /\
  exists g save save_pct t,
    savings_rate_guess 50000 30000 = Ok g
    /\ quick_advice (mk_profile (Some 50000) (Some 30000))
       = Ok (SavingsAdvice save save_pct t)
    /\ g == save_pct.
Proof.
  split; [lra|].
  apply (savings_rate_guess_agrees_with_advice
           (mk_profile (Some 50000) (Some 30000))).
  cbn. lra.
Defined.

(** ** A NaN income on binary64 numbers

    [get_float] accepts the text "nan".  Every comparison with NaN is false,
    so [min] keeps a NaN remainder, [max] then keeps 0.0, and a bounded
    slab is skipped; an unbounded slab taxes the NaN remainder itself. *)

Lemma b64_is_nan_spec (x : float) :
  PrimFloat.is_nan x = true <-> Prim2SF x = S754_nan.
Proof.
  unfold PrimFloat.is_nan. rewrite eqb_spec.
  destruct (Prim2SF x) as [s|s| |s m e]; cbn.
  - split; discriminate.
  - destruct s; split; discriminate.
  - split; reflexivity.
  - unfold SFeqb, SFcompare.
    destruct s; rewrite Z.compare_refl, Pos.compare_cont_refl; cbn;
      split; discriminate.
Qed.

Lemma b64_nan_not_above (w x : float) :
  Prim2SF x = S754_nan -> PrimFloat.ltb w x = false.
Proof.
  intro H. rewrite ltb_spec, H. destruct (Prim2SF w); reflexivity.
Qed.

Lemma b64_nan_not_le (x y : float) :
  Prim2SF x = S754_nan -> PrimFloat.leb x y = false.
Proof.
  intro H. rewrite leb_spec, H. reflexivity.
Qed.

Lemma b64_nan_mul (x y : float) :
  Prim2SF x = S754_nan -> Prim2SF (x * y) = S754_nan.
Proof.
  intro H. rewrite mul_spec, H. reflexivity.
Qed.

Lemma b64_nan_add (x y : float) :
  Prim2SF y = S754_nan -> Prim2SF (x + y) = S754_nan.
Proof.
  intro H. rewrite add_spec, H. unfold SF64add, SFadd.
  destruct (Prim2SF x); reflexivity.
Qed.

Lemma b64_nan_sub (x y : float) :
  Prim2SF x = S754_nan -> Prim2SF (x - y) = S754_nan.
Proof.
  intro H. rewrite sub_spec, H. reflexivity.
Qed.

Lemma b64_slab_step_nan_bounded (st : Binary64.tax_state) (l rate : float) :
  Prim2SF (Binary64.remaining st) = S754_nan ->
  Binary64.slab_step st (Some l, rate) =
  Ok (Binary64.mk_state (Binary64.tax st) l (Binary64.remaining st), Next).
Proof.
  intro H. unfold Binary64.slab_step, Binary64.py_max, Binary64.py_min,
    Binary64.py_lt, Binary64.py_le.
  rewrite (b64_nan_not_above _ _ H). rewrite (b64_nan_not_above _ _ H).
  reflexivity.
Qed.

Lemma b64_slab_step_nan_unbounded (st : Binary64.tax_state) (rate : float) :
  Prim2SF (Binary64.remaining st) = S754_nan ->
  exists st', Binary64.slab_step st (None, rate) = Ok (st', Next)
              /\ Prim2SF (Binary64.remaining st') = S754_nan
              /\ Prim2SF (Binary64.tax st') = S754_nan.
Proof.
  intro H. unfold Binary64.slab_step, Binary64.py_le.
  rewrite (b64_nan_not_le _ _ H). cbn [Binary64.py_div].
  change (PrimFloat.eqb 100 0) with false. cbn [bind].
  cbn [Binary64.remaining].
  rewrite (b64_nan_not_le _ _ (b64_nan_sub _ _ H)).
  eexists. split; [reflexivity|]. cbn.
  split; [apply b64_nan_sub; exact H|].
  apply b64_nan_add, b64_nan_mul. exact H.
Qed.

(** X20: A NaN income is taxed 0.0 by every table that has only bounded
    slabs. *)
Theorem b64_estimate_tax_nan_income_bounded (income : float) (slabs : list Binary64.slab) :
  PrimFloat.is_nan income = true ->
  Forall (fun s : Binary64.slab => fst s <> None) slabs ->
  Binary64.estimate_tax income slabs = Ok 0%float.
Proof.
  intros Hnan Hb. apply b64_is_nan_spec in Hnan. unfold Binary64.estimate_tax.
  enough (G : forall st, Prim2SF (Binary64.remaining st) = S754_nan ->
              exists p, Binary64.for_slabs st slabs =
                        Ok (Binary64.mk_state (Binary64.tax st) p (Binary64.remaining st))).
  { destruct (G (Binary64.mk_state 0 0 income) Hnan) as [p ->]. reflexivity. }
  induction Hb as [|[[l|] rate] rest Hl _ IH]; intros st Hst.
  - exists (Binary64.prev_limit st). destruct st; reflexivity.
  - cbn [Binary64.for_slabs]. rewrite b64_slab_step_nan_bounded by exact Hst.
    cbn. apply (IH (Binary64.mk_state _ _ _)). exact Hst.
  - exfalso. apply Hl. reflexivity.
Qed.

Lemma b64_estimate_tax_nan_income_bounded_witness :
  PrimFloat.is_nan PrimFloat.nan = true
  /\ Forall (fun s : Binary64.slab => fst s <> None)
       [(Some 250000%float, 5%float); (Some 100%float, 20%float)]
  /\ Binary64.estimate_tax PrimFloat.nan
       [(Some 250000%float, 5%float); (Some 100%float, 20%float)] = Ok 0%float.
Proof.
  assert (H : Forall (fun s : Binary64.slab => fst s <> None)
                [(Some 250000%float, 5%float); (Some 100%float, 20%float)])
    by (repeat constructor; discriminate).
  split; [reflexivity|]. split; [exact H|].
  apply (b64_estimate_tax_nan_income_bounded PrimFloat.nan _); [reflexivity | exact H].
Defined.

Lemma b64_for_slabs_nan_tax (slabs : list Binary64.slab) :
  forall st,
    Prim2SF (Binary64.remaining st) = S754_nan ->
    Prim2SF (Binary64.tax st) = S754_nan ->
    exists st', Binary64.for_slabs st slabs = Ok st'
                /\ Prim2SF (Binary64.tax st') = S754_nan.
Proof.
  induction slabs as [|[[l|] rate] rest IH]; intros st Hr Ht.
  - exists st. split; [reflexivity | exact Ht].
  - cbn [Binary64.for_slabs]. rewrite b64_slab_step_nan_bounded by exact Hr.
    cbn. apply (IH (Binary64.mk_state _ _ _)); assumption.
  - cbn [Binary64.for_slabs].
    destruct (b64_slab_step_nan_unbounded st rate Hr) as (st1 & -> & Hr1 & Ht1).
    cbn. apply IH; assumption.
Qed.

(** X21: A NaN income is taxed NaN, without an error, by every table that has
    an unbounded slab, wherever the slab stands. *)
Theorem b64_estimate_tax_nan_income_unbounded (income : float) (slabs : list Binary64.slab) :
  PrimFloat.is_nan income = true ->
  Exists (fun s : Binary64.slab => fst s = None) slabs ->
  exists t, Binary64.estimate_tax income slabs = Ok t /\ PrimFloat.is_nan t = true.
Proof.
  intros Hnan Hex. apply b64_is_nan_spec in Hnan. unfold Binary64.estimate_tax.
  enough (G : forall st, Prim2SF (Binary64.remaining st) = S754_nan ->
              exists st', Binary64.for_slabs st slabs = Ok st'
                          /\ Prim2SF (Binary64.tax st') = S754_nan).
  { destruct (G (Binary64.mk_state 0 0 income) Hnan) as (st' & -> & Ht).
    cbn. eexists. split; [reflexivity|]. apply b64_is_nan_spec. exact Ht. }
  induction slabs as [|[[l|] rate] rest IH]; intros st Hst.
  - inversion Hex.
  - cbn [Binary64.for_slabs]. rewrite b64_slab_step_nan_bounded by exact Hst.
    cbn. apply (IH ltac:(inversion Hex; [discriminate | assumption])
                   (Binary64.mk_state _ _ _)).
    exact Hst.
  - cbn [Binary64.for_slabs].
    destruct (b64_slab_step_nan_unbounded st rate Hst) as (st1 & -> & Hr1 & Ht1).
    cbn. apply b64_for_slabs_nan_tax; assumption.
Qed.

Lemma b64_estimate_tax_nan_income_unbounded_witness :
  PrimFloat.is_nan PrimFloat.nan = true
  /\ Exists (fun s : Binary64.slab => fst s = None) Binary64.example_slabs
  /\ exists t, Binary64.estimate_tax PrimFloat.nan Binary64.example_slabs = Ok t
               /\ PrimFloat.is_nan t = true.
Proof.
  assert (H : Exists (fun s : Binary64.slab => fst s = None) Binary64.example_slabs)
    by (do 3 apply Exists_cons_tl; apply Exists_cons_hd; reflexivity).
  split; [reflexivity|]. split; [exact H|].
  apply (b64_estimate_tax_nan_income_unbounded PrimFloat.nan _); [reflexivity | exact H].
Defined.

Lemma b64_estimate_tax_nonpositive_income_witness :
  PrimFloat.leb PrimFloat.neg_infinity 0 = true
  /\ Binary64.estimate_tax PrimFloat.neg_infinity Binary64.example_slabs = Ok 0%float.
Proof.
  split; [reflexivity|].
  apply (b64_estimate_tax_nonpositive_income PrimFloat.neg_infinity _). reflexivity.
Defined.

(** ** The goal solver on binary64 numbers

    The lemmas of this part hold for every C library: [c_pow] is a
    parameter of each of them. *)

Lemma b64_div_100 (x : float) : Binary64.py_div x 100 = Ok (x / 100)%float.
Proof. reflexivity. Qed.

Lemma b64_div_12 (x : float) : Binary64.py_div x 12 = Ok (x / 12)%float.
Proof. reflexivity. Qed.

Lemma b64_of_int_small (n : Z) :
  (Z.abs n < int_overflow)%Z ->
  Binary64.of_int n = Ok (SF2Prim (binary_normalize prec emax n 0 false)).
Proof.
  intro H. unfold Binary64.of_int.
  replace (int_overflow <=? Z.abs n)%Z with false; [reflexivity|].
  symmetry. apply Z.leb_gt. exact H.
Qed.


Lemma b64_sip_needed_unfold
  (c_pow : float -> float -> float * bool) (goal a : float) (years : Z) :
  Binary64.sip_needed c_pow goal a years =
  if (a / 100 / 12 =? 0)%float then Binary64.py_div_int goal (years * 12)
  else
    p <- Binary64.py_pow c_pow (1 + a / 100 / 12)%float (years * 12) ;;
    Binary64.py_div (goal * (a / 100 / 12))%float (p - 1)%float.
Proof.
  unfold Binary64.sip_needed. rewrite b64_div_100. cbn [bind].
  rewrite b64_div_12. cbn [bind]. cbv zeta.
  destruct (a / 100 / 12 =? 0)%float; [reflexivity|].
  destruct (Binary64.py_pow c_pow (1 + a / 100 / 12)%float (years * 12)) as [p|e];
    cbn [bind]; [|reflexivity].
  destruct (Binary64.py_div (goal * (a / 100 / 12))%float (p - 1)%float);
    reflexivity.
Qed.


(** A base of 1.0 is answered before the C library is asked. *)
Lemma b64_py_pow_one
  (c_pow : float -> float -> float * bool) (n : Z) :
  (Z.abs n < int_overflow)%Z -> Binary64.py_pow c_pow 1 n = Ok 1%float.
Proof.
  intro Hc. unfold Binary64.py_pow. rewrite b64_of_int_small by exact Hc.
  cbn [bind]. destruct (n =? 0)%Z; reflexivity.
Qed.

(** So is a base of -1.0; an even exponent gives 1.0. *)
Lemma b64_py_pow_minus_one_even
  (c_pow : float -> float -> float * bool) (n : Z) :
  (Z.abs n < int_overflow)%Z -> Z.odd n = false ->
  Binary64.py_pow c_pow (-1) n = Ok 1%float.
Proof.
  intros Hc Ho. unfold Binary64.py_pow. rewrite b64_of_int_small by exact Hc.
  cbn [bind]. destruct (n =? 0)%Z; [reflexivity|].
  unfold Binary64.odd_int. rewrite Ho. reflexivity.
Qed.

(** A zero base with a negative exponent is refused. *)
Lemma b64_py_pow_zero_negative
  (c_pow : float -> float -> float * bool) (n : Z) :
  (Z.abs n < int_overflow)%Z -> (n < 0)%Z ->
  Binary64.py_pow c_pow 0 n = Raise ZeroDivisionError.
Proof.
  intros Hc Hn. unfold Binary64.py_pow. rewrite b64_of_int_small by exact Hc.
  cbn [bind].
  replace (n =? 0)%Z with false by (symmetry; apply Z.eqb_neq; lia).
  replace (n <? 0)%Z with true by (symmetry; apply Z.ltb_lt; exact Hn).
  reflexivity.
Qed.


Lemma twelve_years_even (years : Z) : Z.odd (years * 12) = false.
Proof.
  replace (years * 12)%Z with (2 * (years * 6))%Z by lia. apply Z.odd_even.
Qed.




(** On floats the power of [lump_sum_growth] overflows at a rate of 100%
    over 1024 years, and not over 1023. *)
Lemma b64_lump_sum_growth_overflow :
  Binary64.lump_sum_growth Binary64.crpow 1 100 1024 = Raise OverflowError
  /\ exists v, Binary64.lump_sum_growth Binary64.crpow 1 100 1023 = Ok v.
Proof. split; [|eexists]; vm_compute; reflexivity. Qed.

(** C5 fails on the code: at the positive annual rate of 2^-50 % over one
    year the monthly rate r is not 0, but 1 + r rounds to 1.0, the power is
    1.0 and [sip_needed] divides by 1.0 - 1 = 0: it raises
    [ZeroDivisionError] and returns no payment to project.  The guard
    [if r == 0] of the source does not cover a rate that 1.0 absorbs. *)
Theorem sip_needed_tiny_rate_raises :
  let rate := (1 / 1125899906842624)%float in
  (0 <? rate)%float = true
  /\ (rate / 100 / 12 =? 0)%float = false
  /\ (1 + rate / 100 / 12 =? 1)%float = true
  /\ Binary64.sip_needed Binary64.crpow 1200 rate 1 = Raise ZeroDivisionError.
Proof. cbv zeta. repeat split; vm_compute; reflexivity. Qed.

(** X24: Where [sip_needed] raises [ZeroDivisionError] on floats, whatever
    the C library: with years = 0, at every rate; at a rate that is not 0
    but that 1.0 absorbs (1 + r = 1.0), for every years whose n = years * 12
    converts to a float; at a rate of -2400% (1 + r = -1.0) for every such
    years; and at a rate of -1200% (1 + r = 0.0) for negative such years. *)
Theorem b64_sip_needed_zero_division
  (c_pow : float -> float -> float * bool) (goal_amount : float) :
  (forall a, Binary64.sip_needed c_pow goal_amount a 0 = Raise ZeroDivisionError)
  /\ (forall a years,
      (a / 100 / 12 =? 0)%float = false ->
      (1 + a / 100 / 12)%float = 1%float ->
      (Z.abs (years * 12) < int_overflow)%Z ->
      Binary64.sip_needed c_pow goal_amount a years = Raise ZeroDivisionError)
  /\ (forall years,
      (Z.abs (years * 12) < int_overflow)%Z ->
      Binary64.sip_needed c_pow goal_amount (-2400) years
      = Raise ZeroDivisionError)
  /\ (forall years,
      (years < 0)%Z -> (Z.abs (years * 12) < int_overflow)%Z ->
      Binary64.sip_needed c_pow goal_amount (-1200) years
      = Raise ZeroDivisionError).
Proof.
  repeat split.
  - intro a. rewrite b64_sip_needed_unfold.
    destruct (a / 100 / 12 =? 0)%float; reflexivity.
  - intros a years Hr H1 Hc. rewrite b64_sip_needed_unfold, Hr, H1.
    rewrite b64_py_pow_one by exact Hc. reflexivity.
  - intros years Hc. rewrite b64_sip_needed_unfold.
    change ((-2400) / 100 / 12 =? 0)%float with false.
    change (1 + (-2400) / 100 / 12)%float with (-1)%float.
    rewrite b64_py_pow_minus_one_even;
      [reflexivity | exact Hc | apply twelve_years_even].
  - intros years Hy Hc. rewrite b64_sip_needed_unfold.
    change ((-1200) / 100 / 12 =? 0)%float with false.
    change (1 + (-1200) / 100 / 12)%float with 0%float.
    rewrite b64_py_pow_zero_negative; [reflexivity | exact Hc | lia].
Qed.

Lemma b64_sip_needed_zero_division_witness :
  Binary64.sip_needed Binary64.crpow 1200 (1 / 1125899906842624)%float 20
  = Raise ZeroDivisionError.
Proof.
  destruct (b64_sip_needed_zero_division Binary64.crpow 1200) as (_ & H & _).
  apply H; vm_compute; reflexivity.
Defined.

(** ** Monotonicity in the period *)

Lemma balance_period_monotone (m r : Q) (n k : nat) :
  0 <= m -> 0 <= r -> Spec.balance m r n <= Spec.balance m r (k + n).
Proof.
  intros Hm Hr. induction k as [|j IH]; cbn [Nat.add Spec.balance].
  - lra.
  - pose proof (balance_nonneg m r (j + n) Hm Hr) as Hb.
    assert (0 <= (Spec.balance m r (j + n) + m) * r)
      by (apply Qmult_le_0_compat; lra).
    setoid_replace ((Spec.balance m r (j + n) + m) * (1 + r))
      with (Spec.balance m r (j + n) + m + (Spec.balance m r (j + n) + m) * r)
      by ring.
    lra.
Qed.

(** X25: With a non-negative principal, monthly amount and rate, a longer
    period never gives less: for 0 <= years1 <= years2,
    [savings_projection] at years1 is at most its value at years2, and
    whenever [lump_sum_growth] returns at years2 it returns at years1 too,
    with a value that is at most the one at years2. *)
Theorem growth_monotone_in_years
  (principal monthly_saving annual_rate_pct : Q) (years1 years2 : Z) :
  0 <= principal -> 0 <= monthly_saving -> 0 <= annual_rate_pct ->
  (0 <= years1)%Z -> (years1 <= years2)%Z ->
  (exists s1 s2,
      savings_projection monthly_saving annual_rate_pct years1 = Ok s1
      /\ savings_projection monthly_saving annual_rate_pct years2 = Ok s2
      /\ s1 <= s2)
  /\ (forall l2, lump_sum_growth principal annual_rate_pct years2 = Ok l2 ->
      exists l1, lump_sum_growth principal annual_rate_pct years1 = Ok l1
                 /\ l1 <= l2).
Proof.
  intros Hp Hm Ha H1 H12. split.
  - rewrite !savings_projection_unfold.
    do 2 eexists. repeat (split; [reflexivity|]).
    replace (Z.to_nat (years2 * 12))
      with ((Z.to_nat (years2 * 12) - Z.to_nat (years1 * 12))
            + Z.to_nat (years1 * 12))%nat by lia.
    apply balance_period_monotone; [exact Hm | now apply monthlyRate_nonneg].
  - intros l2. rewrite !lump_sum_growth_unfold.
    pose proof (pct_nonneg annual_rate_pct Ha) as Hr.
    set (b := 1 + annual_rate_pct / 100) in *.
    assert (H0 : 0 <= b ^ years1) by (apply Qpower_0_le; unfold b; lra).
    assert (Hle : b ^ years1 <= b ^ years2)
      by (apply Qpower_le_compat_l; [exact H12 | unfold b; lra]).
    destruct (py_pow b years2) as [p2|e] eqn:E2; [|discriminate].
    cbn [bind]. intro H. inversion H. subst l2.
    apply py_pow_inv in E2. destruct E2 as (Hc & Hv & Ho).
    destruct (py_pow_safe b years1) as (p1 & -> & Hp1).
    + lia.
    + lia.
    + destruct Ho as [-> | Ho].
      * assert (years1 = 0%Z) by lia. subst years1. reflexivity.
      * rewrite Qabs_pos by exact H0. rewrite Qabs_pos in Ho by lra. lra.
    + cbn [bind]. eexists. split; [reflexivity|].
      rewrite Hp1, Hv. apply Qmult_le_compat_nonneg; split; lra.
Qed.

Lemma growth_monotone_in_years_witness :
  0 <= 100000 /\ 0 <= 5000 /\ 0 <= 8 /\ (0 <= 1)%Z /\ (1 <= 2)%Z
  /\ (exists s1 s2,
      savings_projection 5000 8 1 = Ok s1
      /\ savings_projection 5000 8 2 = Ok s2
      /\ s1 <= s2)
  /\ exists l1 l2,
      lump_sum_growth 100000 8 1 = Ok l1
      /\ lump_sum_growth 100000 8 2 = Ok l2
      /\ l1 <= l2.
Proof.
  split; [lra|]. split; [lra|]. split; [lra|]. split; [lia|]. split; [lia|].
  destruct (growth_monotone_in_years 100000 5000 8 1 2) as (Hs & Hl);
    try lra; try lia.
  split; [exact Hs|].
  destruct (Hl _ eq_refl) as (l1 & Hl1 & Hle).
  exists l1. eexists. split; [exact Hl1|]. split; [reflexivity | exact Hle].
Defined.

Lemma savings_rate_guess_bounds_witness :
  0 <= 30000 /\
  exists g, savings_rate_guess 50000 30000 = Ok g /\ 0 <= g /\ g <= 100.
Proof.
  split; [lra|].
  destruct (savings_rate_guess_bounds 50000 30000) as (g & Hg & H0 & H100).
  exists g. split; [exact Hg|]. split; [exact H0|]. apply H100. lra.
Defined.
